(** * Collaborative filtering: neighbourhood prediction and matrix factorization

    A shallow embedding of [collaborative_filtering.py]: the similarity of two
    users ([find_similarity]), the k-nearest-neighbour predictor
    ([find_nearest_neighbour_ratings]), the top-n selection
    ([find_top_n_recommendations]) and the SGD matrix factorization
    ([perform_matrix_factorization]).

    Numbers are IEEE binary64 values (numpy's float64), NaN included: a missing
    rating is NaN, as in the pivot table of the source.  An exception raised by
    the source (IndexError, KeyError) is [None]. *)

From Stdlib Require Import Ascii String.
From Stdlib Require Import List ZArith Bool Lia Floats.
From Stdlib Require Uint63.
From Stdlib Require Import Permutation Sorted.
Import ListNotations.
Set Warnings "-inexact-float".

(** ** Exceptions *)

Definition bind {A B : Type} (c : option A) (k : A -> option B) : option B :=
  match c with
  | Some x => k x
  | None => None
  end.

Notation "x <- c ;; k" := (bind c (fun x => k))
  (at level 61, c at next level, right associativity).

(** A comprehension or [for] loop whose body may raise. *)
Fixpoint mapM {A B : Type} (f : A -> option B) (l : list A) : option (list B) :=
  match l with
  | [] => Some []
  | x :: l' => y <- f x ;; ys <- mapM f l' ;; Some (y :: ys)
  end.

(** A [for] loop updating one variable, whose body may raise. *)
Fixpoint foldM {A T : Type} (f : T -> A -> option T) (l : list A) (s : T) : option T :=
  match l with
  | [] => Some s
  | x :: l' => s' <- f s x ;; foldM f l' s'
  end.

Fixpoint iterM {T : Type} (f : T -> option T) (n : nat) (s : T) : option T :=
  match n with
  | O => Some s
  | S n' => s' <- f s ;; iterM f n' s'
  end.

Fixpoint zip_with {A B C : Type} (f : A -> B -> C) (u : list A) (v : list B) : list C :=
  match u, v with
  | x :: u', y :: v' => f x y :: zip_with f u' v'
  | _, _ => []
  end.

(** ** The numpy and scipy functions the source calls *)

Module Np.
Local Open Scope float_scope.

Definition isnan (x : float) : bool := negb (x =? x).

(** An array length or a count, as the float64 a division converts it to. *)
Definition of_len (n : nat) : float := of_uint63 (Uint63.of_Z (Z.of_nat n)).

(** [np.sum]: the reduction starts from the identity 0 and the elements are
    added left to right, which is what numpy does for fewer than 8 elements;
    a longer array is summed pairwise, with another association and hence
    another rounding. *)
Definition sum (a : list float) : float := fold_left PrimFloat.add a 0.

(** [np.mean] and [np.average] without weights. *)
Definition mean (a : list float) : float := sum a / of_len (length a).

(** [np.nanmean]: NaN entries are replaced by 0 in the sum and left out of the
    count; a vector without any number has mean 0/0 = NaN. *)
Definition nanmean (a : list float) : float :=
  sum (map (fun x => if isnan x then 0 else x) a)
  / of_len (length (filter (fun x => negb (isnan x)) a)).

(** [a - c] for an array and a scalar. *)
Definition sub_scalar (a : list float) (c : float) : list float :=
  map (fun x => x - c) a.

(** [c * a] for a scalar and an array. *)
Definition scale (c : float) (a : list float) : list float :=
  map (fun x => c * x) a.

Definition multiply (u v : list float) : list float := zip_with mul u v.
Definition add (u v : list float) : list float := zip_with PrimFloat.add u v.
Definition subtract (u v : list float) : list float := zip_with PrimFloat.sub u v.
Definition square (u : list float) : list float := map (fun x => x * x) u.

(** [np.dot] of two vectors: the rounded products, summed as [np.sum] does. *)
Definition dot (u v : list float) : float := sum (multiply u v).

(** [np.linalg.norm] of a vector. *)
Definition norm (u : list float) : float := sqrt (dot u u).

(** [pow(x, 2)]. *)
Definition pow2 (x : float) : float := x * x.
End Np.

Module Scipy.
Local Open Scope float_scope.

(** [scipy.spatial.distance.correlation(u, v)], unweighted and centered:
    one minus the Pearson correlation of the two vectors. *)
Definition correlation (u v : list float) : float :=
  let umu := Np.mean u in
  let vmu := Np.mean v in
  let u := Np.sub_scalar u umu in
  let v := Np.sub_scalar v vmu in
  let uv := Np.mean (Np.multiply u v) in
  let uu := Np.mean (Np.square u) in
  let vv := Np.mean (Np.square v) in
  1 - uv / sqrt (uu * vv).
End Scipy.

(** ** The pandas objects the source uses *)

Definition label := Z.

(** A frame: row labels, column labels, and the cells row by row. *)
Record DataFrame := mkFrame {
  index : list label;
  columns : list label;
  values : list (list float)
}.

(** A labelled vector (a Series, or a frame of one column), in row order. *)
Definition Series := list (label * float).

(** A frame as pandas builds it: rectangular.  A pivot table also has unique
    row and column labels. *)
Definition rectangular (df : DataFrame) : Prop :=
  length (values df) = length (index df) /\
  Forall (fun row => length row = length (columns df)) (values df).

Definition pivot_table (df : DataFrame) : Prop :=
  rectangular df /\ NoDup (index df) /\ NoDup (columns df).

(** [Index.get_loc]: the position of a label; KeyError when it is absent.
    The labels of a pivot table are unique, so the first position is the only
    one. *)
Fixpoint get_loc (l : label) (idx : list label) : option nat :=
  match idx with
  | [] => None
  | l' :: idx' => if Z.eqb l l' then Some O else p <- get_loc l idx' ;; Some (S p)
  end.

(** [df.loc[i]] *)
Definition loc_row (df : DataFrame) (i : label) : option (list float) :=
  p <- get_loc i (index df) ;; nth_error (values df) p.

(** [df.loc[i, j]] *)
Definition loc_cell (df : DataFrame) (i j : label) : option float :=
  row <- loc_row df i ;; c <- get_loc j (columns df) ;; nth_error row c.

Fixpoint replace_nth {A : Type} (p : nat) (x : A) (l : list A) : list A :=
  match l, p with
  | [], _ => []
  | _ :: l', O => x :: l'
  | y :: l', S p' => y :: replace_nth p' x l'
  end.

(** [df.loc[i] = v] for a label of the frame (every assignment of the source
    follows a read of the same label, which raises when the label is absent). *)
Definition set_row (df : DataFrame) (i : label) (v : list float) : DataFrame :=
  match get_loc i (index df) with
  | Some p => mkFrame (index df) (columns df) (replace_nth p v (values df))
  | None => df
  end.

(** [s.loc[j]] on a labelled vector. *)
Fixpoint series_loc (s : Series) (j : label) : option float :=
  match s with
  | [] => None
  | (l, x) :: s' => if Z.eqb j l then Some x else series_loc s' j
  end.

Definition isin (l : label) (ls : list label) : bool := existsb (Z.eqb l) ls.

(** [s.drop(labels)] for labels of [s]. *)
Definition drop (labels : list label) (s : Series) : Series :=
  filter (fun r => negb (isin (fst r) labels)) s.

(** [l[:n]]: a negative [n] counts from the end. *)
Definition slice_to {A : Type} (n : Z) (l : list A) : list A :=
  if (n <? 0)%Z then firstn (length l - Z.to_nat (- n)) l
  else firstn (Z.to_nat n) l.

(** An ascending argsort: each row is placed before the first row that is not
    smaller.  Rows of equal value keep their order; numpy's quicksort promises
    no order among them, and this is one of the orders it may produce. *)
Fixpoint insert_asc (x : label * float) (l : Series) : Series :=
  match l with
  | [] => [x]
  | y :: l' => if (snd x <=? snd y)%float then x :: l else y :: insert_asc x l'
  end.

Definition argsort (l : Series) : Series := fold_right insert_asc [] l.

(** [sort_values(s, ascending=[0])], as pandas' [nargsort] does it with
    [na_position='last']: the rows holding a number are reversed, sorted
    ascending and reversed again; the NaN rows follow in their original order. *)
Definition sort_values_desc (s : Series) : Series :=
  let non_nans := filter (fun r => negb (Np.isnan (snd r))) s in
  let nans := filter (fun r => Np.isnan (snd r)) s in
  rev (argsort (rev non_nans)) ++ nans.

(** ** K nearest neighbours *)

(** [common_movieIDs == 0] in the source compares a list with the integer 0:
    Python never finds a list equal to an integer, whatever the list holds. *)
Definition list_eq_int (l : list nat) (z : Z) : bool := false.

(** The test [user_1[i] > 0 and user_2[i] > 0]: [and] reads [user_2[i]] only
    when the first comparison holds, and an index past the end of an array
    raises IndexError. *)
Definition both_positive (user_1 user_2 : list float) (i : nat) : option bool :=
  x <- nth_error user_1 i ;;
  if (0 <? x)%float then y <- nth_error user_2 i ;; Some (0 <? y)%float
  else Some false.

(** [[i for i in ids if user_1[i] > 0 and user_2[i] > 0]] *)
Fixpoint comprehension (user_1 user_2 : list float) (ids : list nat) : option (list nat) :=
  match ids with
  | [] => Some []
  | i :: ids' =>
      b <- both_positive user_1 user_2 i ;;
      rest <- comprehension user_1 user_2 ids' ;;
      Some (if b then i :: rest else rest)
  end.

Definition common_movieIDs (user_1 user_2 : list float) : option (list nat) :=
  comprehension user_1 user_2 (seq 0 (length user_1)).

(** [np.array([user[i] for i in common_movieIDs])] *)
Definition subset (user : list float) (ids : list nat) : option (list float) :=
  mapM (nth_error user) ids.

Definition find_similarity (user_1 user_2 : list float) : option float :=
  let user_1 := Np.sub_scalar user_1 (Np.nanmean user_1) in
  let user_2 := Np.sub_scalar user_2 (Np.nanmean user_2) in
  common <- common_movieIDs user_1 user_2 ;;
  if list_eq_int common 0 then Some 0%float
  else
    u1 <- subset user_1 common ;;
    u2 <- subset user_2 common ;;
    Some (Scipy.correlation u1 u2).

Section Recommender.
(** The two module-level tables of the source. *)
Variable user_item_rating_matrix : DataFrame.
Variable movies_data : list (label * string).

(** The loop filling [similarity_matrix], one row per user. *)
Definition similarity_matrix (active_user : label) : option Series :=
  mapM (fun i =>
          a <- loc_row user_item_rating_matrix active_user ;;
          r <- loc_row user_item_rating_matrix i ;;
          s <- find_similarity a r ;;
          Some (i, s))
       (index user_item_rating_matrix).

(** [sort_values(similarity_matrix, ascending=[0])[:k]] *)
Definition nearest_neighbours (active_user : label) (k : Z) : option Series :=
  sm <- similarity_matrix active_user ;;
  Some (slice_to k (sort_values_desc sm)).

(** One round of the inner loop, for neighbour [j] and movie [i]. *)
Definition neighbour_step (nearest : Series) (i : label)
    (predicted_rating : float) (j : label) : option float :=
  r <- loc_cell user_item_rating_matrix j i ;;
  if (0 <? r)%float then
    row <- loc_row user_item_rating_matrix j ;;
    s <- series_loc nearest j ;;
    Some (predicted_rating + (r - Np.nanmean row) * s)%float
  else Some predicted_rating.

(** The body of the loop over the movies: the prediction for movie [i]. *)
Definition predict_movie (nearest : Series) (active_user i : label) : option float :=
  a <- loc_row user_item_rating_matrix active_user ;;
  foldM (neighbour_step nearest i) (map fst nearest) (Np.nanmean a).

Definition find_nearest_neighbour_ratings (active_user : label) (k : Z) : option Series :=
  nearest <- nearest_neighbours active_user k ;;
  mapM (fun i => p <- predict_movie nearest active_user i ;; Some (i, p))
       (columns user_item_rating_matrix).

(** The labels of the active user's row whose value is [> 0]. *)
Definition watched_movies (active_user : label) : option (list label) :=
  row <- loc_row user_item_rating_matrix active_user ;;
  Some (map fst (filter (fun c => (0 <? snd c)%float)
                        (combine (columns user_item_rating_matrix) row))).

(** The frame [top_recommendations]: the predictions of the unwatched movies,
    sorted, cut to [n] rows. *)
Definition top_recommendations (active_user : label) (n : Z) : option Series :=
  predicted_ratings <- find_nearest_neighbour_ratings active_user 10 ;;
  watched <- watched_movies active_user ;;
  Some (slice_to n (sort_values_desc (drop watched predicted_ratings))).

(** The rows of [movies_data] whose movieID is in [top_recommendations.index]. *)
Definition top_recommendations_titles (active_user : label) (n : Z)
    : option (list (label * string)) :=
  top <- top_recommendations active_user n ;;
  Some (filter (fun m => isin (fst m) (map fst top)) movies_data).

Definition find_top_n_recommendations (active_user : label) (n : Z)
    : option (list string) :=
  rows <- top_recommendations_titles active_user n ;;
  Some (map snd rows).
End Recommender.

(** ** Matrix factorization *)

Section MatrixFactorization.
Local Open Scope float_scope.

(** The three frames the training code holds: it reads [R], and reads and
    assigns [P] and [Q]. *)
Record store := mkStore {
  sR : DataFrame;
  sP : DataFrame;
  sQ : DataFrame
}.

(** [np.random.rand(n, k)]: [n] rows of [k] draws, taken from the generator's
    sequence [rnd] from draw number [start] on. *)
Definition rand (rnd : nat -> float) (start n k : nat) : list (list float) :=
  map (fun i => map (fun c => rnd (start + i * k + c)%nat) (seq 0 k)) (seq 0 n).

(** The default column labels 0 .. k-1 of a frame built from an array. *)
Definition range_index (k : nat) : list label := map Z.of_nat (seq 0 k).

Definition init_store (R : DataFrame) (K : nat) (rnd : nat -> float) : store :=
  let N := length (index R) in
  let M := length (columns R) in
  mkStore R
    (mkFrame (index R) (range_index K) (rand rnd 0 N K))
    (mkFrame (columns R) (range_index K) (rand rnd (N * K) M K)).

Variables gamma lamda : float.

(** The two assignments made for a rating that exists:
    [P.loc[i] = P.loc[i] + gamma*(eij*Q.loc[j] - lamda*P.loc[i])], then
    [Q.loc[j] = Q.loc[j] + gamma*(eij*P.loc[i] - lamda*Q.loc[j])]. *)
Definition sgd_update (s : store) (i j : label) (r : float) : option store :=
  p <- loc_row (sP s) i ;;
  q <- loc_row (sQ s) j ;;
  let eij := r - Np.dot p q in
  let P := set_row (sP s) i
             (Np.add p (Np.scale gamma
                (Np.subtract (Np.scale eij q) (Np.scale lamda p)))) in
  q' <- loc_row (sQ s) j ;;
  p' <- loc_row P i ;;
  let Q := set_row (sQ s) j
             (Np.add q' (Np.scale gamma
                (Np.subtract (Np.scale eij p') (Np.scale lamda q')))) in
  Some (mkStore (sR s) P Q).

(** The body of the two nested loops of an epoch. *)
Definition sgd_cell (s : store) (i j : label) : option store :=
  r <- loc_cell (sR s) i j ;;
  if 0 <? r then sgd_update s i j r else Some s.

Definition sgd_epoch (s : store) : option store :=
  foldM (fun s i => foldM (fun s j => sgd_cell s i j) (columns (sR s)) s)
        (index (sR s)) s.

(** The body of the loops computing [e]. *)
Definition objective_cell (s : store) (i j : label) (e : float) : option float :=
  r <- loc_cell (sR s) i j ;;
  if 0 <? r then
    p <- loc_row (sP s) i ;;
    q <- loc_row (sQ s) j ;;
    Some (e + Np.pow2 (r - Np.dot p q)
            + lamda * (Np.pow2 (Np.norm p) + Np.pow2 (Np.norm q)))
  else Some e.

Definition objective (s : store) : option float :=
  foldM (fun e i => foldM (fun e j => objective_cell s i j e) (columns (sR s)) e)
        (index (sR s)) 0.

(** [for step in range(steps)]: an epoch, the objective, and [break] when it
    is below the threshold; otherwise a dot is printed.  [out] is what has
    been written to the standard output so far. *)
Fixpoint train (steps : nat) (s : store) (out : string) : option (store * string) :=
  match steps with
  | O => Some (s, out)
  | S steps' =>
      s' <- sgd_epoch s ;;
      e <- objective s' ;;
      if e <? 0.001 then Some (s', out)
      else train steps' s' (out ++ ".")%string
  end.

(** The function returns [(P, Q)]; the second component is its output. *)
Definition perform_matrix_factorization (R : DataFrame) (K : nat) (steps : Z)
    (rnd : nat -> float) : option ((DataFrame * DataFrame) * string) :=
  r <- train (Z.to_nat steps) (init_store R K rnd) EmptyString ;;
  Some ((sP (fst r), sQ (fst r)), snd r).
End MatrixFactorization.

(** ** The rating records and the user's favourites *)

(** A row of [ratings_data]. *)
Module RatingRow.
Record t := mk {
  userID : Z;
  movieID : Z;
  rating : float;
  timestamp : Z
}.
End RatingRow.

(** A row of [ratings_data] after the merge with [movies_data]: the rating and
    the title of its movie. *)
Definition titled_row : Type := RatingRow.t * string.

(** The positions 0 .. len-1 of the rows of a frame. *)
Definition positions {A : Type} (rows : list A) : list label :=
  map Z.of_nat (seq 0 (length rows)).

(** [frame.take(indexer)]: the rows at the given positions; a position past the
    end raises IndexError. *)
Definition take_rows {A : Type} (rows : list A) (indexer : list label)
    : option (list A) :=
  mapM (fun p => nth_error rows (Z.to_nat p)) indexer.

(** [sort_values(frame, [column], ascending=[0])]: the argsort of the column, as
    in [sort_values_desc], then the rows taken in that order. *)
Definition sort_rows_desc {A : Type} (value : A -> float) (rows : list A)
    : option (list A) :=
  take_rows rows
    (map fst (sort_values_desc (combine (positions rows) (map value rows)))).

(** [ratings_data] is the merged table the module holds when the function is
    called. *)
Definition find_top_favorite_movies (ratings_data : list titled_row)
    (active_user : label) (n : Z) : option (list string) :=
  top_movies <-
    sort_rows_desc (fun r => RatingRow.rating (fst r))
      (filter (fun r => Z.eqb (RatingRow.userID (fst r)) active_user) ratings_data) ;;
  Some (map snd (slice_to n top_movies)).

(** ** The pivot table *)

(** The sorted labels without repetition, as [groupby] orders its keys. *)
Fixpoint insert_label (l : label) (ls : list label) : list label :=
  match ls with
  | [] => [l]
  | l' :: ls' =>
      if (l <? l')%Z then l :: ls
      else if (l =? l')%Z then ls
      else l' :: insert_label l ls'
  end.

Definition unique_sorted (ls : list label) : list label :=
  fold_right insert_label [] ls.

(** The ratings one user gave one movie, in the order of the rows. *)
Definition group (ratings_data : list RatingRow.t) (u m : label) : list float :=
  map RatingRow.rating
      (filter (fun r => Z.eqb (RatingRow.userID r) u && Z.eqb (RatingRow.movieID r) m)
              ratings_data).

(** The mean of a group as [groupby(...).mean()] takes it: over the values
    that are not NaN; NaN when there is none. *)
Definition group_mean (vals : list float) : float :=
  let xs := filter (fun x => negb (Np.isnan x)) vals in
  (Np.sum xs / Np.of_len (length xs))%float.

(** [pd.pivot_table(ratings_data, values='rating', index=['userID'],
    columns=['movieID'])]: the mean rating of every (user, movie) group; the
    groups whose mean is NaN are dropped; the users and the movies of the
    groups left label the rows and the columns, sorted; a cell without a group
    is NaN. *)
Definition pd_pivot_table (ratings_data : list RatingRow.t) : DataFrame :=
  let mean_of r := group_mean (group ratings_data (RatingRow.userID r) (RatingRow.movieID r)) in
  let agged := filter (fun r => negb (Np.isnan (mean_of r))) ratings_data in
  let idx := unique_sorted (map RatingRow.userID agged) in
  let cols := unique_sorted (map RatingRow.movieID agged) in
  mkFrame idx cols
          (map (fun u => map (fun m => group_mean (group ratings_data u m)) cols) idx).

(** ** The latent factor technique of the main script *)

(** [frame.iloc[:rows, :cols]] *)
Definition iloc_to (rows cols : nat) (R : DataFrame) : DataFrame :=
  mkFrame (firstn rows (index R)) (firstn cols (columns R))
          (map (firstn cols) (firstn rows (values R))).

(** [pd.DataFrame(np.dot(P.loc[active_user], Q.T), index=Q.index,
    columns=['Rating'])]; [np.dot] raises ValueError when the vector is not as
    long as [Q] has columns. *)
Definition latent_predicted_ratings (P Q : DataFrame) (active_user : label)
    : option Series :=
  p <- loc_row P active_user ;;
  if Nat.eqb (length p) (length (columns Q))
  then Some (combine (index Q) (map (fun q => Np.dot p q) (values Q)))
  else None.

(** The titles the main script prints for the latent factor technique. *)
Definition latent_recommendations (movies_data : list (label * string))
    (P Q : DataFrame) (active_user : label) (limit : Z) : option (list string) :=
  predicted_ratings <- latent_predicted_ratings P Q active_user ;;
  let top_recommendations := slice_to limit (sort_values_desc predicted_ratings) in
  Some (map snd (filter (fun m => isin (fst m) (map fst top_recommendations))
                        movies_data)).

(** The main script's second part, with its constants: user 10, 10 titles, the
    first 100 users and movies, 2 factors, 20 steps and the default [gamma] and
    [lamda]. *)
Definition main_latent_factor (user_item_rating_matrix : DataFrame)
    (movies_data : list (label * string)) (rnd : nat -> float)
    : option (list string) :=
  r <- perform_matrix_factorization 0.001 0.02
         (iloc_to 100 100 user_item_rating_matrix) 2 20 rnd ;;
  latent_recommendations movies_data (fst (fst r)) (snd (fst r)) 10%Z 10%Z.

(** ** Notions used in the statements *)

(** A user's vector after the removal of the user's bias. *)
Definition centered (user : list float) : list float :=
  Np.sub_scalar user (Np.nanmean user).

(** Both centered values at position [i] are strictly positive. *)
Definition co_rated (c1 c2 : list float) (i : nat) : bool :=
  ((0 <? nth i c1 nan) && (0 <? nth i c2 nan))%float.

(** The entries of [c] at the positions [ids]. *)
Definition restricted (c : list float) (ids : list nat) : list float :=
  map (fun i => nth i c nan) ids.

(** The test [similarity(a, b) == similarity(b, a)]: both calls return, and the
    two floats compare equal (which no NaN does, not even with itself). *)
Definition similarity_test_passes (user_a user_b : list float) : Prop :=
  exists s1 s2,
    find_similarity user_a user_b = Some s1 /\
    find_similarity user_b user_a = Some s2 /\
    (s1 =? s2)%float = true.

(** Two readings of "the user has rated the movie": the cell holds a number,
    or, as the source tests it, the cell is strictly positive. *)
Definition present (r : float) : bool := negb (Np.isnan r).
Definition positive (r : float) : bool := (0 <? r)%float.

(** Descending order of two values that follow each other in a sorted frame:
    the later one is no larger, or it is NaN (NaN rows come last). *)
Definition descending (a b : float) : Prop :=
  Np.isnan b = true \/ (b <=? a)%float = true.

Definition by_value_descending (a b : label * float) : Prop :=
  descending (snd a) (snd b).

(** Ascending order of two rows that hold numbers. *)
Definition ascending (a b : label * float) : Prop :=
  (snd a <=? snd b)%float = true.

(** The cell [R.loc[j, i]] and the mean [np.nanmean(R.loc[j])] of a user of the
    matrix. *)
Definition rating (R : DataFrame) (j i : label) : float :=
  match loc_cell R j i with
  | Some r => r
  | None => nan
  end.

Definition user_mean (R : DataFrame) (j : label) : float :=
  match loc_row R j with
  | Some row => Np.nanmean row
  | None => nan
  end.

(** The prediction as the specification words it: the active user's mean, plus,
    for each selected neighbour that has rated the movie, the neighbour's
    similarity times the deviation of the neighbour's rating from the
    neighbour's mean.  [rated] says which cells count as rated. *)
Definition weighted_deviations (rated : float -> bool) (R : DataFrame)
    (nearest : Series) (active_user i : label) : float :=
  fold_left
    (fun acc js => (acc + snd js * (rating R (fst js) i - user_mean R (fst js)))%float)
    (filter (fun js => rated (rating R (fst js) i)) nearest)
    (user_mean R active_user).

(** The neighbourhood prediction of every movie is the weighted sum of
    deviations over the selected neighbours that have rated it. *)
Definition predicts_weighted_deviations (rated : float -> bool) (R : DataFrame)
    (active_user : label) (k : Z) : Prop :=
  exists nearest,
    nearest_neighbours R active_user k = Some nearest /\
    find_nearest_neighbour_ratings R active_user k
    = Some (map (fun i => (i, weighted_deviations rated R nearest active_user i))
                (columns R)).

(** No movie the active user has rated is behind a returned title. *)
Definition recommends_no_rated_movie (rated : float -> bool) (R : DataFrame)
    (M : list (label * string)) (active_user : label) (n : Z) : Prop :=
  exists rows,
    top_recommendations_titles R M active_user n = Some rows /\
    find_top_n_recommendations R M active_user n = Some (map snd rows) /\
    forall m t, In (m, t) rows -> rated (rating R active_user m) = false.

(** The returned titles follow the descending order of the predictions of
    their movies. *)
Definition returned_in_rating_order (R : DataFrame) (M : list (label * string))
    (active_user : label) (n : Z) : Prop :=
  exists rows predicted,
    top_recommendations_titles R M active_user n = Some rows /\
    find_top_n_recommendations R M active_user n = Some (map snd rows) /\
    find_nearest_neighbour_ratings R active_user 10 = Some predicted /\
    StronglySorted
      (fun a b => forall pa pb,
           series_loc predicted (fst a) = Some pa ->
           series_loc predicted (fst b) = Some pb -> descending pa pb)
      rows.

(** The vector [x + gamma * (eij * y - lamda * x)] of a gradient step. *)
Definition moved (gamma lamda eij : float) (x y : list float) : list float :=
  Np.add x (Np.scale gamma (Np.subtract (Np.scale eij y) (Np.scale lamda x))).

(** A factor matrix for the labels [idx]: it is indexed by them and has one row
    of [K] entries for each. *)
Definition factor_shape (idx : list label) (K : nat) (F : DataFrame) : Prop :=
  index F = idx /\ columns F = range_index K /\
  length (values F) = length idx /\
  Forall (fun row => length row = K) (values F).

(** The frames of a training run on [R] with [K] factors: [R] itself, a factor
    matrix for its users and one for its movies. *)
Definition store_shape (R : DataFrame) (K : nat) (s : store) : Prop :=
  sR s = R /\ factor_shape (index R) K (sP s) /\ factor_shape (columns R) K (sQ s).

(** The factor vector of a label. *)
Definition factor (F : DataFrame) (i : label) : list float :=
  match loc_row F i with
  | Some v => v
  | None => []
  end.

(** The objective as the specification words it: over the rated cells, row by
    row, the squared error plus the regularization times the squared norms of
    the two factor vectors.  [rated] says which cells count as rated. *)
Definition objective_term (lamda : float) (s : store) (ij : label * label)
    (e : float) : float :=
  let p := factor (sP s) (fst ij) in
  let q := factor (sQ s) (snd ij) in
  (e + Np.pow2 (rating (sR s) (fst ij) (snd ij) - Np.dot p q)
     + lamda * (Np.pow2 (Np.norm p) + Np.pow2 (Np.norm q)))%float.

Definition total_objective (rated : float -> bool) (lamda : float) (s : store) : float :=
  fold_left
    (fun e ij => objective_term lamda s ij e)
    (filter (fun ij => rated (rating (sR s) (fst ij) (snd ij)))
            (list_prod (index (sR s)) (columns (sR s))))
    0%float.

(** [n] dots. *)
Fixpoint dots (n : nat) : string :=
  match n with
  | O => EmptyString
  | S n' => String "."%char (dots n')
  end.

(** The training loop runs [m] epochs, at most [steps]; no epoch before the
    last one ended with the objective below 0.001; and either the loop ran out
    of steps, having printed a dot for each epoch, or the last epoch ended with
    the objective below 0.001 and printed no dot.  The factor matrices after
    these [m] epochs are returned. *)
Definition stops_on_objective (rated : float -> bool) (gamma lamda : float)
    (R : DataFrame) (K : nat) (steps : Z) (rnd : nat -> float) : Prop :=
  exists (m : nat) (s : store) (out : string),
    (m <= Z.to_nat steps)%nat /\
    iterM (sgd_epoch gamma lamda) m (init_store R K rnd) = Some s /\
    perform_matrix_factorization gamma lamda R K steps rnd
    = Some ((sP s, sQ s), out) /\
    (forall t st, (0 < t < m)%nat ->
        iterM (sgd_epoch gamma lamda) t (init_store R K rnd) = Some st ->
        (total_objective rated lamda st <? 0.001)%float = false) /\
    ((m = Z.to_nat steps /\
      (m = 0%nat \/ (total_objective rated lamda s <? 0.001)%float = false) /\
      out = dots m)
     \/
     ((0 < m)%nat /\
      (total_objective rated lamda s <? 0.001)%float = true /\
      out = dots (m - 1))).

(** The matrix in which every cell that is not strictly positive is missing. *)
Definition missing_unless_positive (R : DataFrame) : DataFrame :=
  mkFrame (index R) (columns R)
          (map (map (fun r => if (0 <? r)%float then r else nan)) (values R)).

Definition masked (s : store) : store :=
  mkStore (missing_unless_positive (sR s)) (sP s) (sQ s).

(** A position and a value of the enumerated column of a frame, and the row
    they are those of. *)
Definition row_at {A : Type} (value : A -> float) (rows : list A)
    (pv : label * float) (r : A) : Prop :=
  nth_error rows (Z.to_nat (fst pv)) = Some r /\ value r = snd pv.

(** Since the store [s0], the rows of the users and of the movies without any
    strictly positive rating in [R] have not changed. *)
Definition rows_kept (R : DataFrame) (s0 s : store) : Prop :=
  sR s = R /\
  (forall i0, (forall j', positive (rating R i0 j') = false) ->
              loc_row (sP s) i0 = loc_row (sP s0) i0) /\
  (forall j0, (forall i', positive (rating R i' j0) = false) ->
              loc_row (sQ s) j0 = loc_row (sQ s0) j0).

(** ** Example data *)

(** Two users and five movies; user 1 has not rated movies 40 and 50. *)
Definition ratings_two_unrated : DataFrame :=
  mkFrame [1; 2]%Z [10; 20; 30; 40; 50]%Z
          [[5; 4; 1; nan; nan]; [4; 5; 1; 2; 3]]%float.

(** Two users and four movies; user 2 has given movie 40 the rating 0. *)
Definition ratings_with_zero : DataFrame :=
  mkFrame [1; 2]%Z [10; 20; 30; 40]%Z [[5; 4; 1; 1]; [4; 5; 1; 0]]%float.

Definition movies_five : list (label * string) :=
  [(10, "a"); (20, "b"); (30, "c"); (40, "d"); (50, "e")]%Z%string.

(** One user, one movie, rated 0. *)
Definition ratings_single_zero : DataFrame := mkFrame [1]%Z [1]%Z [[0]]%float.

(** A generator whose every draw is 1/2, and one drawing 1/16, 2/16, ... *)
Definition draws_half (n : nat) : float := 0.5%float.
Definition draws_sixteenths (n : nat) : float := (Np.of_len (S n) / 16)%float.

(** Five merged rating rows: four of user 1, one of them without a number. *)
Definition rated_titles : list titled_row :=
  [(RatingRow.mk 2 10 4 0, "a"); (RatingRow.mk 1 20 3 0, "b"); (RatingRow.mk 1 10 5 0, "a");
   (RatingRow.mk 1 30 nan 0, "c"); (RatingRow.mk 1 40 3 0, "d")]%float%string.

(** One user who has rated nothing, one who has. *)
Definition ratings_new_user : DataFrame :=
  mkFrame [1; 2]%Z [10; 20]%Z [[nan; nan]; [4; 5]]%float.


(** * Properties *)

(** ** Loops that may raise *)

Lemma bind_inv {A B : Type} (c : option A) (k : A -> option B) (y : B) :
  bind c k = Some y -> exists x, c = Some x /\ k x = Some y.
Proof. destruct c as [x|]; simpl; [eauto | discriminate]. Qed.

Lemma mapM_total {A B : Type} (f : A -> option B) (g : A -> B) (l : list A) :
  (forall x, In x l -> f x = Some (g x)) -> mapM f l = Some (map g l).
Proof.
  induction l as [|x l IH]; intros Hf; simpl.
  - reflexivity.
  - rewrite (Hf x (or_introl eq_refl)). simpl.
    rewrite IH by (intros y Hy; apply Hf; now right). reflexivity.
Qed.

Lemma foldM_total {A T : Type} (f : T -> A -> option T) (g : T -> A -> T)
    (l : list A) (s : T) :
  (forall s' x, In x l -> f s' x = Some (g s' x)) ->
  foldM f l s = Some (fold_left g l s).
Proof.
  revert s. induction l as [|x l IH]; intros s Hf; simpl.
  - reflexivity.
  - rewrite (Hf s x (or_introl eq_refl)). simpl.
    apply IH. intros s' y Hy. apply Hf. now right.
Qed.

(** A loop whose body keeps an invariant and never raises under it. *)
Lemma foldM_invariant {A T : Type} (Inv : T -> Prop) (f : T -> A -> option T)
    (l : list A) (s : T) :
  (forall s' x, In x l -> Inv s' -> exists s'', f s' x = Some s'' /\ Inv s'') ->
  Inv s -> exists s', foldM f l s = Some s' /\ Inv s'.
Proof.
  revert s. induction l as [|x l IH]; intros s Hf Hs; simpl.
  - eauto.
  - destruct (Hf s x (or_introl eq_refl) Hs) as (s1 & -> & Hs1). simpl.
    apply IH; [|exact Hs1]. intros s' y Hy. apply Hf. now right.
Qed.

Lemma iterM_invariant {T : Type} (Inv : T -> Prop) (f : T -> option T)
    (n : nat) (s : T) :
  (forall s', Inv s' -> exists s'', f s' = Some s'' /\ Inv s'') ->
  Inv s -> exists s', iterM f n s = Some s' /\ Inv s'.
Proof.
  intros Hf. revert s. induction n as [|n IH]; intros s Hs; simpl.
  - eauto.
  - destruct (Hf s Hs) as (s1 & -> & Hs1). simpl. now apply IH.
Qed.

Lemma zip_with_comm {A C : Type} (f : A -> A -> C) (u v : list A) :
  (forall x y, f x y = f y x) -> zip_with f u v = zip_with f v u.
Proof.
  intros Hf. revert v. induction u as [|x u IH]; intros [|y v]; simpl;
    try reflexivity.
  now rewrite Hf, IH.
Qed.

Lemma zip_with_length {A B C : Type} (f : A -> B -> C) (u : list A) (v : list B) :
  length (zip_with f u v) = Nat.min (length u) (length v).
Proof.
  revert v. induction u as [|x u IH]; intros [|y v]; simpl; try reflexivity.
  now rewrite IH.
Qed.

(** ** Facts of binary64 arithmetic *)

Module F64.
Local Open Scope float_scope.

Lemma mul_comm (x y : float) : x * y = y * x.
Proof.
  apply Prim2SF_inj. rewrite !mul_spec.
  destruct (Prim2SF x) as [sx|sx| |sx mx ex], (Prim2SF y) as [sy|sy| |sy my ey];
    unfold SF64mul, SFmul; rewrite ?(xorb_comm sx sy); try reflexivity.
  now rewrite Pos.mul_comm, Z.add_comm.
Qed.

Lemma SFleb_trans (x y z : spec_float) :
  SFleb x y = true -> SFleb y z = true -> SFleb x z = true.
Proof.
  unfold SFleb, SFcompare.
  destruct x as [sx|sx| |sx mx ex], y as [sy|sy| |sy my ey],
           z as [sz|sz| |sz mz ez];
    try discriminate; try reflexivity;
    repeat match goal with s : bool |- _ => destruct s end;
    try discriminate; try reflexivity;
    rewrite ?Pos.compare_cont_spec; simpl;
    destruct (Z.compare_spec ex ey); destruct (Z.compare_spec ey ez);
    destruct (Z.compare_spec ex ez);
    try discriminate; try reflexivity; try lia; subst;
    destruct (Pos.compare_spec mx my); destruct (Pos.compare_spec my mz);
    destruct (Pos.compare_spec mx mz); simpl;
    try discriminate; try reflexivity; try lia.
Qed.

Lemma SFcompare_swap (x y : spec_float) :
  SFcompare y x = option_map CompOpp (SFcompare x y).
Proof.
  unfold SFcompare.
  destruct x as [sx|sx| |sx mx ex], y as [sy|sy| |sy my ey];
    repeat match goal with s : bool |- _ => destruct s end;
    try reflexivity; simpl;
    rewrite ?Pos.compare_cont_spec; simpl;
    rewrite (Z.compare_antisym ex ey), (Pos.compare_antisym mx my);
    destruct (ex ?= ey)%Z; simpl; try reflexivity;
    destruct (mx ?= my)%positive; reflexivity.
Qed.

Lemma leb_trans (x y z : float) :
  (x <=? y) = true -> (y <=? z) = true -> (x <=? z) = true.
Proof. rewrite !leb_spec. apply SFleb_trans. Qed.

Lemma isnan_spec (x : float) : Np.isnan x = true <-> Prim2SF x = S754_nan.
Proof.
  unfold Np.isnan. rewrite eqb_spec. unfold SFeqb, SFcompare.
  destruct (Prim2SF x) as [s|s| |s m e]; try destruct s; simpl;
    rewrite ?Z.compare_refl, ?Pos.compare_cont_refl; simpl;
    split; congruence.
Qed.

(** Two numbers are comparable: NaN alone is not. *)
Lemma leb_total (x y : float) :
  Np.isnan x = false -> Np.isnan y = false ->
  (x <=? y) = false -> (y <=? x) = true.
Proof.
  intros Hx Hy. rewrite !leb_spec. unfold SFleb.
  rewrite (SFcompare_swap (Prim2SF x) (Prim2SF y)).
  assert (Hx' : Prim2SF x <> S754_nan)
    by (intros E; apply isnan_spec in E; congruence).
  assert (Hy' : Prim2SF y <> S754_nan)
    by (intros E; apply isnan_spec in E; congruence).
  destruct (SFcompare (Prim2SF x) (Prim2SF y)) as [[| |]|] eqn:E; simpl;
    try discriminate; try reflexivity.
  unfold SFcompare in E.
  destruct (Prim2SF x) as [sx|sx| |sx mx ex], (Prim2SF y) as [sy|sy| |sy my ey];
    try congruence; discriminate.
Qed.

(** The order never holds both ways strictly. *)
Lemma leb_not_ltb (x y : float) : (y <=? x) = true -> (x <? y) = false.
Proof.
  rewrite leb_spec, ltb_spec. unfold SFleb, SFltb.
  rewrite (SFcompare_swap (Prim2SF x) (Prim2SF y)).
  destruct (SFcompare (Prim2SF x) (Prim2SF y)) as [[| |]|]; simpl; congruence.
Qed.

Lemma ltb_nan_r (x y : float) : Np.isnan y = true -> (x <? y) = false.
Proof.
  intros E. apply isnan_spec in E. rewrite ltb_spec. unfold SFltb, SFcompare.
  rewrite E. destruct (Prim2SF x); reflexivity.
Qed.

(** A comparison [0 < r] excludes NaN and every [r <= 0]. *)
Lemma positive_not_leb (r : float) : (r <=? 0) = true -> (0 <? r) = false.
Proof. apply leb_not_ltb. Qed.

Lemma positive_not_nan (r : float) : Np.isnan r = true -> (0 <? r) = false.
Proof. apply ltb_nan_r. Qed.
End F64.

(** ** The similarity of two users *)

Section Similarity.
Local Open Scope float_scope.

Lemma centered_length (user : list float) :
  length (centered user) = length user.
Proof. apply length_map. Qed.

Lemma both_positive_in_range (c1 c2 : list float) (i : nat) :
  (i < length c1)%nat -> (length c1 <= length c2)%nat ->
  both_positive c1 c2 i = Some (co_rated c1 c2 i).
Proof.
  intros H1 H2. unfold both_positive, co_rated.
  rewrite (nth_error_nth' c1 nan H1). simpl.
  destruct (0 <? nth i c1 nan); [|reflexivity].
  rewrite (nth_error_nth' c2 nan) by lia. reflexivity.
Qed.

Lemma comprehension_in_range (c1 c2 : list float) (ids : list nat) :
  (length c1 <= length c2)%nat ->
  Forall (fun i => (i < length c1)%nat) ids ->
  comprehension c1 c2 ids = Some (filter (co_rated c1 c2) ids).
Proof.
  intros Hlen. induction 1 as [|i ids Hi _ IH]; simpl.
  - reflexivity.
  - rewrite (both_positive_in_range _ _ _ Hi Hlen), IH. simpl.
    destruct (co_rated c1 c2 i); reflexivity.
Qed.

Lemma seq_in_range (n : nat) : Forall (fun i => (i < n)%nat) (seq 0 n).
Proof. apply Forall_forall. intros i Hi. apply in_seq in Hi. lia. Qed.

Lemma common_movieIDs_filter (c1 c2 : list float) :
  (length c1 <= length c2)%nat ->
  common_movieIDs c1 c2 = Some (filter (co_rated c1 c2) (seq 0 (length c1))).
Proof.
  intros Hlen. apply comprehension_in_range; [exact Hlen | apply seq_in_range].
Qed.

Lemma subset_in_range (c : list float) (ids : list nat) :
  Forall (fun i => (i < length c)%nat) ids ->
  subset c ids = Some (restricted c ids).
Proof.
  intros H. apply mapM_total. intros i Hi.
  rewrite Forall_forall in H. apply nth_error_nth'. now apply H.
Qed.

Lemma seq_strongly_sorted (a n : nat) : StronglySorted lt (seq a n).
Proof.
  revert a. induction n as [|n IH]; intros a; simpl; constructor.
  - apply IH.
  - apply Forall_forall. intros i Hi. apply in_seq in Hi. lia.
Qed.

Lemma filter_strongly_sorted {A : Type} (R : A -> A -> Prop) (f : A -> bool)
    (l : list A) :
  StronglySorted R l -> StronglySorted R (filter f l).
Proof.
  induction 1 as [|x l Hl IH Hx]; simpl; [constructor|].
  destruct (f x); [|exact IH].
  constructor; [exact IH|].
  rewrite Forall_forall in *. intros y Hy. apply filter_In in Hy.
  apply Hx, Hy.
Qed.

(** What [find_similarity] computes for two vectors of one matrix. *)
Lemma find_similarity_eq (user_1 user_2 : list float) :
  length user_1 = length user_2 ->
  let ids := filter (co_rated (centered user_1) (centered user_2))
                    (seq 0 (length user_1)) in
  find_similarity user_1 user_2
  = Some (Scipy.correlation (restricted (centered user_1) ids)
                            (restricted (centered user_2) ids)).
Proof.
  intros Hlen ids. unfold find_similarity.
  fold (centered user_1). fold (centered user_2).
  rewrite common_movieIDs_filter by (rewrite !centered_length; lia).
  rewrite centered_length. fold ids. simpl.
  assert (Hids : Forall (fun i => (i < length user_1)%nat) ids).
  { apply Forall_forall. intros i Hi. apply filter_In in Hi.
    destruct Hi as [Hi _]. apply in_seq in Hi. lia. }
  rewrite !subset_in_range; [reflexivity | |];
    rewrite centered_length; [rewrite <- Hlen|]; exact Hids.
Qed.

Lemma co_rated_comm (c1 c2 : list float) (i : nat) :
  co_rated c1 c2 i = co_rated c2 c1 i.
Proof. apply andb_comm. Qed.

Lemma correlation_comm (u v : list float) :
  Scipy.correlation u v = Scipy.correlation v u.
Proof.
  unfold Scipy.correlation, Np.multiply.
  rewrite (zip_with_comm mul (Np.sub_scalar u (Np.mean u))
             (Np.sub_scalar v (Np.mean v)) F64.mul_comm).
  rewrite (F64.mul_comm (Np.mean (Np.square (Np.sub_scalar u (Np.mean u))))).
  reflexivity.
Qed.

Lemma correlation_nil : Scipy.correlation [] [] = nan.
Proof. reflexivity. Qed.
End Similarity.

(** C4. For two rating vectors of the same matrix (equal lengths),
    [find_similarity] subtracts from each vector its own [nanmean] (the mean of
    its non-missing entries), keeps exactly the positions, in increasing order,
    at which both centered values are strictly positive, and returns the
    correlation distance of the two centered vectors restricted to those
    positions. *)
Theorem find_similarity_centers_then_restricts (user_1 user_2 : list float) :
  length user_1 = length user_2 ->
  let c1 := Np.sub_scalar user_1 (Np.nanmean user_1) in
  let c2 := Np.sub_scalar user_2 (Np.nanmean user_2) in
  exists ids : list nat,
    (forall i, In i ids <->
       (i < length user_1)%nat /\
       (0 <? nth i c1 nan)%float = true /\ (0 <? nth i c2 nan)%float = true) /\
    StronglySorted lt ids /\
    find_similarity user_1 user_2
    = Some (Scipy.correlation (map (fun i => nth i c1 nan) ids)
                              (map (fun i => nth i c2 nan) ids)).
Proof.
  intros Hlen c1 c2.
  exists (filter (co_rated c1 c2) (seq 0 (length user_1))). repeat split.
  - apply filter_In in H. destruct H as [H _]. apply in_seq in H. lia.
  - apply filter_In in H. destruct H as [_ H].
    apply andb_true_iff in H. apply H.
  - apply filter_In in H. destruct H as [_ H].
    apply andb_true_iff in H. apply H.
  - intros (Hi & H1 & H2). apply filter_In. split.
    + apply in_seq. lia.
    + unfold co_rated. now rewrite H1, H2.
  - apply filter_strongly_sorted, seq_strongly_sorted.
  - apply (find_similarity_eq user_1 user_2 Hlen).
Qed.

Lemma find_similarity_centers_then_restricts_witness :
  let user_1 := [5; 4; 1; 1]%float in
  let user_2 := [4; 5; 1; 0]%float in
  length user_1 = length user_2 /\
  exists ids : list nat,
    (forall i, In i ids <->
       (i < length user_1)%nat /\
       (0 <? nth i (Np.sub_scalar user_1 (Np.nanmean user_1)) nan)%float = true /\
       (0 <? nth i (Np.sub_scalar user_2 (Np.nanmean user_2)) nan)%float = true) /\
    StronglySorted lt ids /\
    find_similarity user_1 user_2
    = Some (Scipy.correlation
              (map (fun i => nth i (Np.sub_scalar user_1 (Np.nanmean user_1)) nan) ids)
              (map (fun i => nth i (Np.sub_scalar user_2 (Np.nanmean user_2)) nan) ids)).
Proof.
  intros user_1 user_2. split; [reflexivity|].
  exact (find_similarity_centers_then_restricts user_1 user_2 eq_refl).
Defined.

(** C1. When no position is co-rated, [find_similarity] does not take the
    branch that returns 0: the test [common_movieIDs == 0] compares a list with
    an integer and is never true, so the correlation of two empty vectors is
    returned, which is NaN and not 0. *)
Theorem find_similarity_no_common_movies_is_nan (user_1 user_2 : list float) :
  common_movieIDs (Np.sub_scalar user_1 (Np.nanmean user_1))
                  (Np.sub_scalar user_2 (Np.nanmean user_2)) = Some [] ->
  exists s, find_similarity user_1 user_2 = Some s /\
            Np.isnan s = true /\ (s =? 0)%float = false.
Proof.
  intros H. exists nan. unfold find_similarity. rewrite H.
  repeat split; reflexivity.
Qed.

Lemma find_similarity_no_common_movies_is_nan_witness :
  common_movieIDs (Np.sub_scalar [3; nan]%float (Np.nanmean [3; nan]%float))
                  (Np.sub_scalar [nan; 4]%float (Np.nanmean [nan; 4]%float))
  = Some [] /\
  exists s, find_similarity [3; nan]%float [nan; 4]%float = Some s /\
            Np.isnan s = true /\ (s =? 0)%float = false.
Proof.
  split; [reflexivity|].
  exact (find_similarity_no_common_movies_is_nan
           [3; nan]%float [nan; 4]%float eq_refl).
Defined.

(** C8 (amended). For two rating vectors of the same matrix with at least one
    co-rated position, the two calls [find_similarity a b] and
    [find_similarity b a] return the same value [s]; the test [s == s] on the
    two results holds exactly when that value is a number, and fails when it
    is NaN. *)
Theorem find_similarity_symmetric_value (user_a user_b : list float) :
  length user_a = length user_b ->
  (exists i ids,
      common_movieIDs (Np.sub_scalar user_a (Np.nanmean user_a))
                      (Np.sub_scalar user_b (Np.nanmean user_b))
      = Some (i :: ids)) ->
  exists s,
    find_similarity user_a user_b = Some s /\
    find_similarity user_b user_a = Some s /\
    (s =? s)%float = negb (Np.isnan s).
Proof.
  intros Hlen Hcommon.
  rewrite (find_similarity_eq user_a user_b Hlen).
  rewrite (find_similarity_eq user_b user_a (eq_sym Hlen)).
  cbv zeta. rewrite <- Hlen.
  rewrite (filter_ext _ _ (co_rated_comm (centered user_b) (centered user_a))).
  rewrite (correlation_comm (restricted (centered user_b) _)).
  eexists. split; [reflexivity|]. split; [reflexivity|].
  unfold Np.isnan. now rewrite negb_involutive.
Qed.

Lemma find_similarity_symmetric_value_witness :
  length [5; 4; 1; 1]%float = length [4; 5; 1; 0]%float /\
  exists s,
    find_similarity [5; 4; 1; 1]%float [4; 5; 1; 0]%float = Some s /\
    find_similarity [4; 5; 1; 0]%float [5; 4; 1; 1]%float = Some s /\
    (s =? s)%float = negb (Np.isnan s).
Proof.
  split; [reflexivity|].
  apply find_similarity_symmetric_value; [reflexivity|].
  exists 0%nat, [1%nat]. reflexivity.
Defined.

(** C8 as worded fails: the users [5; 1] and [4; 1] have one co-rated position,
    both calls return NaN, and NaN == NaN is false. *)
Lemma find_similarity_test_fails_on_nan :
  length [5; 1]%float = length [4; 1]%float /\
  (exists i ids,
      common_movieIDs (Np.sub_scalar [5; 1]%float (Np.nanmean [5; 1]%float))
                      (Np.sub_scalar [4; 1]%float (Np.nanmean [4; 1]%float))
      = Some (i :: ids)) /\
  find_similarity [5; 1]%float [4; 1]%float = Some nan /\
  find_similarity [4; 1]%float [5; 1]%float = Some nan /\
  ~ similarity_test_passes [5; 1]%float [4; 1]%float.
Proof.
  split; [reflexivity|]. split; [exists 0%nat, []; reflexivity|].
  split; [reflexivity|]. split; [reflexivity|].
  intros (s1 & s2 & H1 & H2 & E).
  vm_compute in H1. injection H1 as <-.
  vm_compute in H2. injection H2 as <-.
  vm_compute in E. discriminate.
Qed.

(** ** Sorting a frame by value *)

Section Sorting.
Local Open Scope float_scope.

Lemma strongly_sorted_app {A : Type} (R : A -> A -> Prop) (l1 l2 : list A) :
  StronglySorted R l1 -> StronglySorted R l2 ->
  (forall a b, In a l1 -> In b l2 -> R a b) ->
  StronglySorted R (l1 ++ l2).
Proof.
  induction 1 as [|x l1 Hl1 IH Hx]; intros H2 H12; simpl; [exact H2|].
  constructor.
  - apply IH; [exact H2|]. intros a b Ha Hb. apply H12; [now right | exact Hb].
  - apply Forall_app. split; [exact Hx|].
    apply Forall_forall. intros b Hb. apply H12; [now left | exact Hb].
Qed.

Lemma strongly_sorted_weaken {A : Type} (R R' : A -> A -> Prop) (l : list A) :
  (forall a b, R a b -> R' a b) -> StronglySorted R l -> StronglySorted R' l.
Proof.
  intros HR. induction 1 as [|x l Hl IH Hx]; constructor; [exact IH|].
  revert Hx. apply Forall_impl. intros b. apply HR.
Qed.

Lemma strongly_sorted_rev {A : Type} (R : A -> A -> Prop) (l : list A) :
  StronglySorted R l -> StronglySorted (fun a b => R b a) (rev l).
Proof.
  induction 1 as [|x l Hl IH Hx]; simpl; [constructor|].
  apply strongly_sorted_app; [exact IH | repeat constructor |].
  intros a b Ha [<-|[]]. rewrite Forall_forall in Hx.
  apply Hx. now apply in_rev.
Qed.

Lemma firstn_in {A : Type} (n : nat) (l : list A) (x : A) :
  In x (firstn n l) -> In x l.
Proof.
  intros H. rewrite <- (firstn_skipn n l). apply in_or_app. now left.
Qed.

Lemma strongly_sorted_firstn {A : Type} (R : A -> A -> Prop) (n : nat)
    (l : list A) :
  StronglySorted R l -> StronglySorted R (firstn n l).
Proof.
  intros H. revert n. induction H as [|x l Hl IH Hx]; intros [|n]; simpl;
    try constructor.
  - apply IH.
  - rewrite Forall_forall in *. intros y Hy. apply Hx.
    now apply (firstn_in n).
Qed.

Lemma strongly_sorted_slice_to {A : Type} (R : A -> A -> Prop) (n : Z)
    (l : list A) :
  StronglySorted R l -> StronglySorted R (slice_to n l).
Proof.
  intros H. unfold slice_to.
  destruct (n <? 0)%Z; now apply strongly_sorted_firstn.
Qed.

Lemma slice_to_incl {A : Type} (n : Z) (l : list A) : incl (slice_to n l) l.
Proof.
  unfold slice_to. intros x Hx.
  destruct (n <? 0)%Z; exact (firstn_in _ _ _ Hx).
Qed.

Lemma nodup_firstn {A : Type} (n : nat) (l : list A) :
  NoDup l -> NoDup (firstn n l).
Proof.
  intros H. rewrite <- (firstn_skipn n l) in H.
  exact (NoDup_app_remove_r _ _ H).
Qed.

Lemma slice_to_nodup_labels {B : Type} (n : Z) (l : list (label * B)) :
  NoDup (map fst l) -> NoDup (map fst (slice_to n l)).
Proof.
  unfold slice_to. intros H.
  destruct (n <? 0)%Z; rewrite <- firstn_map; now apply nodup_firstn.
Qed.

Lemma insert_asc_perm (x : label * float) (l : Series) :
  Permutation (insert_asc x l) (x :: l).
Proof.
  induction l as [|y l IH]; simpl; [reflexivity|].
  destruct (snd x <=? snd y); [reflexivity|].
  rewrite IH. apply perm_swap.
Qed.

Lemma argsort_perm (l : Series) : Permutation (argsort l) l.
Proof.
  induction l as [|x l IH]; simpl; [reflexivity|].
  rewrite insert_asc_perm. now constructor.
Qed.

Lemma insert_asc_sorted (x : label * float) (l : Series) :
  Np.isnan (snd x) = false ->
  Forall (fun r => Np.isnan (snd r) = false) l ->
  StronglySorted ascending l -> StronglySorted ascending (insert_asc x l).
Proof.
  intros Hx Hl Hs. induction Hs as [|y l Hs IH Hy]; simpl.
  - repeat constructor.
  - inversion Hl as [|? ? Hy' Hl']; subst.
    destruct (snd x <=? snd y) eqn:E.
    + constructor; [now constructor|].
      constructor; [exact E|].
      rewrite Forall_forall in *. intros z Hz.
      exact (F64.leb_trans _ _ _ E (Hy z Hz)).
    + constructor; [now apply IH|].
      rewrite Forall_forall in *. intros z Hz.
      apply (Permutation_in _ (insert_asc_perm x l)) in Hz.
      destruct Hz as [<-|Hz]; [|now apply Hy].
      now apply F64.leb_total.
Qed.

Lemma argsort_sorted (l : Series) :
  Forall (fun r => Np.isnan (snd r) = false) l ->
  StronglySorted ascending (argsort l).
Proof.
  induction 1 as [|x l Hx Hl IH]; simpl; [constructor|].
  apply insert_asc_sorted; [exact Hx | | exact IH].
  rewrite Forall_forall in *. intros y Hy. apply Hl.
  exact (Permutation_in _ (argsort_perm l) Hy).
Qed.

Lemma filter_partition_perm {A : Type} (f : A -> bool) (l : list A) :
  Permutation (filter (fun x => negb (f x)) l ++ filter f l) l.
Proof.
  induction l as [|x l IH]; simpl; [reflexivity|].
  destruct (f x); simpl.
  - rewrite <- Permutation_middle. now constructor.
  - now constructor.
Qed.

Lemma sort_values_desc_perm (s : Series) : Permutation (sort_values_desc s) s.
Proof.
  unfold sort_values_desc.
  rewrite <- (filter_partition_perm (fun r => Np.isnan (snd r)) s) at 3.
  apply Permutation_app_tail.
  rewrite <- Permutation_rev, argsort_perm, <- Permutation_rev. reflexivity.
Qed.

Lemma sort_values_desc_sorted (s : Series) :
  StronglySorted by_value_descending (sort_values_desc s).
Proof.
  unfold sort_values_desc. apply strongly_sorted_app.
  - apply (strongly_sorted_weaken (fun a b => ascending b a)).
    + intros a b E. right. exact E.
    + apply strongly_sorted_rev, argsort_sorted, Forall_forall.
      intros r Hr. apply in_rev, filter_In in Hr. now apply negb_true_iff.
  - induction s as [|r s IH]; simpl; [constructor|].
    destruct (Np.isnan (snd r)) eqn:E; [|exact IH].
    constructor; [exact IH|]. apply Forall_forall. intros b Hb.
    apply filter_In in Hb. left. apply Hb.
  - intros a b _ Hb. apply filter_In in Hb. left. apply Hb.
Qed.

(** A frame in descending order never goes up from a row to a later one. *)
Lemma descending_never_ascending (a b : float) :
  descending a b -> (a <? b) = false.
Proof.
  intros [H|H]; [now apply F64.ltb_nan_r | now apply F64.leb_not_ltb].
Qed.
End Sorting.

(** ** Reading a frame *)

Section Frames.
Lemma get_loc_nth (l : label) (idx : list label) (p : nat) :
  get_loc l idx = Some p -> nth_error idx p = Some l.
Proof.
  revert p. induction idx as [|l' idx IH]; intros p; simpl; [discriminate|].
  destruct (Z.eqb_spec l l') as [->|Hne].
  - intros [= <-]. reflexivity.
  - intros H. apply bind_inv in H. destruct H as (q & Hq & [= <-]).
    now apply IH.
Qed.

Lemma get_loc_in (l : label) (idx : list label) :
  In l idx -> exists p, get_loc l idx = Some p.
Proof.
  induction idx as [|l' idx IH]; simpl; [intros []|].
  intros H. destruct (Z.eqb_spec l l') as [->|Hne]; [eauto|].
  destruct H as [->|H]; [congruence|].
  destruct (IH H) as (p & ->). simpl. eauto.
Qed.

Lemma get_loc_bound (l : label) (idx : list label) (p : nat) :
  get_loc l idx = Some p -> (p < length idx)%nat.
Proof.
  intros H. apply get_loc_nth in H. apply nth_error_Some. congruence.
Qed.

Variable R : DataFrame.
Hypothesis Hrect : rectangular R.

Lemma loc_row_in (i : label) :
  In i (index R) ->
  exists row, loc_row R i = Some row /\ length row = length (columns R).
Proof.
  intros Hi. destruct (get_loc_in _ _ Hi) as (p & Hp).
  unfold loc_row. rewrite Hp. simpl.
  destruct Hrect as [Hlen Hrows].
  destruct (nth_error (values R) p) as [row|] eqn:E.
  - exists row. split; [reflexivity|].
    rewrite Forall_forall in Hrows. apply Hrows.
    exact (nth_error_In _ _ E).
  - apply nth_error_None in E. apply get_loc_bound in Hp. lia.
Qed.

Lemma loc_cell_in (i j : label) :
  In i (index R) -> In j (columns R) ->
  loc_cell R i j = Some (rating R i j).
Proof.
  intros Hi Hj. unfold rating.
  destruct (loc_row_in i Hi) as (row & Hrow & Hlen).
  destruct (get_loc_in _ _ Hj) as (c & Hc).
  unfold loc_cell. rewrite Hrow, Hc. simpl.
  destruct (nth_error row c) eqn:E; [reflexivity|].
  apply nth_error_None in E. apply get_loc_bound in Hc. lia.
Qed.

Lemma loc_row_mean (i : label) (row : list float) :
  loc_row R i = Some row -> user_mean R i = Np.nanmean row.
Proof. unfold user_mean. now intros ->. Qed.

(** The cell of a row sits beside its column label. *)
Lemma rating_in_combine (i j : label) (row : list float) :
  loc_row R i = Some row -> In j (columns R) ->
  In (j, rating R i j) (combine (columns R) row).
Proof.
  intros Hrow Hj.
  assert (Hi : In i (index R)).
  { unfold loc_row in Hrow. apply bind_inv in Hrow.
    destruct Hrow as (p & Hp & _). apply get_loc_nth in Hp.
    exact (nth_error_In _ _ Hp). }
  pose proof (loc_cell_in i j Hi Hj) as Hcell.
  unfold loc_cell in Hcell. rewrite Hrow in Hcell. simpl in Hcell.
  apply bind_inv in Hcell. destruct Hcell as (c & Hc & Hnth).
  apply get_loc_nth in Hc. clear Hrow Hi Hj.
  revert c Hc Hnth. generalize (columns R) as cols. revert row.
  induction row as [|x row IH]; intros cols [|c] Hc Hnth;
    destruct cols as [|l cols]; simpl in *; try discriminate.
  - left. congruence.
  - right. now apply (IH cols c).
Qed.
End Frames.

Lemma series_loc_nodup (s : Series) (j : label) (x : float) :
  NoDup (map fst s) -> In (j, x) s -> series_loc s j = Some x.
Proof.
  induction s as [|[l y] s IH]; simpl; [intros _ []|].
  intros Hnd [[= -> ->]|Hin].
  - now rewrite Z.eqb_refl.
  - inversion Hnd as [|? ? Hl Hnd']; subst.
    destruct (Z.eqb_spec j l) as [->|_]; [|now apply IH].
    exfalso. apply Hl. apply in_map_iff. now exists (l, x).
Qed.

Lemma isin_spec (l : label) (ls : list label) : isin l ls = true <-> In l ls.
Proof.
  unfold isin. rewrite existsb_exists. split.
  - intros (x & Hx & E). apply Z.eqb_eq in E. now subst.
  - intros H. exists l. split; [exact H | apply Z.eqb_refl].
Qed.

(** ** The neighbourhood prediction *)

Lemma mapM_labels {A B : Type} (f : A -> option (A * B)) (l : list A) :
  (forall x, In x l -> exists y, f x = Some (x, y)) ->
  exists ys, mapM f l = Some ys /\ map fst ys = l.
Proof.
  induction l as [|x l IH]; intros Hf; simpl.
  - exists []. split; reflexivity.
  - destruct (Hf x (or_introl eq_refl)) as (y & ->).
    destruct IH as (ys & -> & Hys); [intros z Hz; apply Hf; now right|].
    exists ((x, y) :: ys). simpl. now rewrite Hys.
Qed.

Section Neighbourhood.
Local Open Scope float_scope.

Variable R : DataFrame.
Hypothesis Hpivot : pivot_table R.
Variable active_user : label.
Hypothesis Hactive : In active_user (index R).

Let Hrect : rectangular R := proj1 Hpivot.

Lemma similarity_matrix_labels :
  exists sm, similarity_matrix R active_user = Some sm /\ map fst sm = index R.
Proof.
  apply mapM_labels. intros i Hi.
  destruct (loc_row_in R Hrect active_user Hactive) as (a & -> & Ha).
  destruct (loc_row_in R Hrect i Hi) as (r & -> & Hr). simpl.
  rewrite (find_similarity_eq a r) by congruence. simpl. eauto.
Qed.

Lemma nearest_neighbours_labels (k : Z) :
  exists nearest,
    nearest_neighbours R active_user k = Some nearest /\
    NoDup (map fst nearest) /\ incl (map fst nearest) (index R).
Proof.
  destruct similarity_matrix_labels as (sm & Hsm & Hlab).
  unfold nearest_neighbours. rewrite Hsm. simpl.
  eexists. split; [reflexivity|].
  pose proof (Permutation_map fst (sort_values_desc_perm sm)) as Hperm.
  rewrite Hlab in Hperm. split.
  - apply slice_to_nodup_labels.
    apply (Permutation_NoDup (Permutation_sym Hperm)), Hpivot.
  - intros j Hj. apply (Permutation_in _ Hperm).
    apply in_map_iff in Hj. destruct Hj as (js & <- & Hjs).
    apply in_map. exact (slice_to_incl _ _ _ Hjs).
Qed.

(** The inner loop adds one term for each neighbour whose cell is [> 0]. *)
Lemma neighbour_loop (nearest l : Series) (i : label) (acc : float) :
  In i (columns R) ->
  (forall js, In js l ->
      In (fst js) (index R) /\ series_loc nearest (fst js) = Some (snd js)) ->
  foldM (neighbour_step R nearest i) (map fst l) acc
  = Some (fold_left
            (fun acc js => acc + snd js * (rating R (fst js) i - user_mean R (fst js)))
            (filter (fun js => positive (rating R (fst js) i)) l) acc).
Proof.
  intros Hi. revert acc. induction l as [|[j s] l IH]; intros acc Hl; simpl.
  - reflexivity.
  - destruct (Hl (j, s) (or_introl eq_refl)) as [Hj Hs]. simpl in Hj, Hs.
    unfold neighbour_step at 1.
    rewrite (loc_cell_in R Hrect j i Hj Hi). simpl.
    unfold positive at 1.
    destruct (0 <? rating R j i).
    + destruct (loc_row_in R Hrect j Hj) as (row & Hrow & _).
      rewrite Hrow, Hs. simpl.
      rewrite (loc_row_mean R j row Hrow), (F64.mul_comm s).
      apply IH. intros js Hjs. apply Hl. now right.
    + apply IH. intros js Hjs. apply Hl. now right.
Qed.

Lemma predict_movie_eq (nearest : Series) (i : label) :
  In i (columns R) ->
  NoDup (map fst nearest) -> incl (map fst nearest) (index R) ->
  predict_movie R nearest active_user i
  = Some (weighted_deviations positive R nearest active_user i).
Proof.
  intros Hi Hnd Hincl. unfold predict_movie, weighted_deviations.
  destruct (loc_row_in R Hrect active_user Hactive) as (a & Ha & _).
  rewrite Ha, (loc_row_mean R active_user a Ha). simpl.
  apply neighbour_loop; [exact Hi|]. intros [j s] Hjs. simpl. split.
  - apply Hincl. apply in_map_iff. now exists (j, s).
  - now apply series_loc_nodup.
Qed.

Lemma find_nearest_neighbour_ratings_eq (k : Z) :
  predicts_weighted_deviations positive R active_user k.
Proof.
  destruct (nearest_neighbours_labels k) as (nearest & Hnn & Hnd & Hincl).
  exists nearest. split; [exact Hnn|].
  unfold find_nearest_neighbour_ratings. rewrite Hnn. simpl.
  apply mapM_total. intros i Hi.
  now rewrite (predict_movie_eq nearest i Hi Hnd Hincl).
Qed.

(** ** The top-n selection *)

Lemma top_recommendations_eq (n : Z) :
  exists predicted a,
    find_nearest_neighbour_ratings R active_user 10 = Some predicted /\
    map fst predicted = columns R /\
    loc_row R active_user = Some a /\
    top_recommendations R active_user n
    = Some (slice_to n (sort_values_desc
         (drop (map fst (filter (fun c => 0 <? snd c) (combine (columns R) a)))
               predicted))).
Proof.
  destruct (find_nearest_neighbour_ratings_eq 10) as (nearest & _ & Hp).
  destruct (loc_row_in R Hrect active_user Hactive) as (a & Ha & _).
  eexists. exists a. split; [exact Hp|]. split; [|split; [exact Ha|]].
  - rewrite map_map. simpl. apply map_id.
  - unfold top_recommendations, watched_movies. rewrite Hp, Ha. reflexivity.
Qed.

Lemma top_recommendations_not_positive (n : Z) (top : Series) (m : label) :
  top_recommendations R active_user n = Some top ->
  In m (map fst top) -> positive (rating R active_user m) = false.
Proof.
  destruct (top_recommendations_eq n) as (predicted & a & _ & Hlab & Ha & ->).
  intros [= <-] Hm.
  apply in_map_iff in Hm. destruct Hm as ([m' x] & Hfst & Hin).
  simpl in Hfst. subst m'.
  apply slice_to_incl in Hin.
  apply (Permutation_in _ (sort_values_desc_perm _)) in Hin.
  apply filter_In in Hin. destruct Hin as [Hin Hdrop]. simpl in Hdrop.
  assert (Hcol : In m (columns R)).
  { rewrite <- Hlab. apply in_map_iff. now exists (m, x). }
  apply not_true_is_false. intros Hpos.
  apply negb_true_iff in Hdrop.
  assert (Hw : isin m (map fst (filter (fun c => 0 <? snd c)
                                       (combine (columns R) a))) = true).
  { apply isin_spec. apply in_map_iff.
    exists (m, rating R active_user m). split; [reflexivity|].
    apply filter_In. split; [|exact Hpos].
    now apply rating_in_combine. }
  congruence.
Qed.
End Neighbourhood.

Ltac prove_pivot_table :=
  repeat split;
  try reflexivity;
  repeat (constructor; simpl; try reflexivity);
  intuition discriminate.

Lemma ratings_with_zero_pivot : pivot_table ratings_with_zero.
Proof. unfold pivot_table, rectangular. prove_pivot_table. Defined.

Lemma ratings_two_unrated_pivot : pivot_table ratings_two_unrated.
Proof. unfold pivot_table, rectangular. prove_pivot_table. Defined.

(** C3 (amended). For a user of the rating matrix and every [k], the predicted
    rating of each movie is the active user's mean over the non-missing
    entries, plus, for each of the selected neighbours whose rating of the
    movie is strictly positive, the neighbour's similarity times the deviation
    of that rating from the neighbour's own mean, added in the order of the
    neighbours; a neighbour whose cell is missing or not positive adds
    nothing. *)
Theorem prediction_is_weighted_deviation_sum (R : DataFrame)
    (active_user : label) (k : Z) :
  pivot_table R -> In active_user (index R) ->
  predicts_weighted_deviations positive R active_user k.
Proof.
  intros Hpivot Hactive.
  exact (find_nearest_neighbour_ratings_eq R Hpivot active_user Hactive k).
Qed.

Lemma prediction_is_weighted_deviation_sum_witness :
  pivot_table ratings_with_zero /\ In 1%Z (index ratings_with_zero) /\
  predicts_weighted_deviations positive ratings_with_zero 1%Z 10%Z.
Proof.
  split; [exact ratings_with_zero_pivot|]. split; [now left|].
  apply prediction_is_weighted_deviation_sum;
    [exact ratings_with_zero_pivot | now left].
Defined.

(** C3 as worded fails: user 2 has rated movie 40 with the value 0, and adds
    nothing to user 1's prediction for it (2.75, not 2.75 + 2 * (0 - 2.5)). *)
Lemma prediction_ignores_a_zero_rating :
  pivot_table ratings_with_zero /\ In 1%Z (index ratings_with_zero) /\
  ~ predicts_weighted_deviations present ratings_with_zero 1%Z 10%Z.
Proof.
  split; [exact ratings_with_zero_pivot|]. split; [now left|].
  intros (nearest & Hnn & Hp).
  vm_compute in Hnn. injection Hnn as <-.
  apply (f_equal (fun o : option Series =>
                    match o with
                    | Some [_; _; _; (_, x)] => (x =? 2.75)%float
                    | _ => false
                    end)) in Hp.
  vm_compute in Hp. discriminate.
Qed.

(** C7 (amended). For a user of the rating matrix and every [n], no movie for
    which the active user's rating is strictly positive is behind a returned
    title. *)
Theorem top_n_excludes_positively_rated (R : DataFrame)
    (M : list (label * string)) (active_user : label) (n : Z) :
  pivot_table R -> In active_user (index R) ->
  recommends_no_rated_movie positive R M active_user n.
Proof.
  intros Hpivot Hactive.
  destruct (top_recommendations_eq R Hpivot active_user Hactive n)
    as (predicted & a & _ & _ & _ & Htop).
  unfold recommends_no_rated_movie, find_top_n_recommendations,
    top_recommendations_titles.
  rewrite Htop. simpl. eexists. split; [reflexivity|]. split; [reflexivity|].
  intros m t Hm. apply filter_In in Hm. destruct Hm as [_ Hm]. simpl in Hm.
  apply isin_spec in Hm.
  exact (top_recommendations_not_positive R Hpivot active_user Hactive
           n _ m Htop Hm).
Qed.

Lemma top_n_excludes_positively_rated_witness :
  pivot_table ratings_two_unrated /\ In 1%Z (index ratings_two_unrated) /\
  recommends_no_rated_movie positive ratings_two_unrated movies_five 1%Z 10%Z.
Proof.
  split; [exact ratings_two_unrated_pivot|]. split; [now left|].
  apply top_n_excludes_positively_rated;
    [exact ratings_two_unrated_pivot | now left].
Defined.

(** C7 as worded fails: user 2 has rated movie 40 (with the value 0) and its
    title is returned. *)
Lemma top_n_returns_a_movie_rated_zero :
  pivot_table ratings_with_zero /\ In 2%Z (index ratings_with_zero) /\
  ~ recommends_no_rated_movie present ratings_with_zero movies_five 2%Z 10%Z.
Proof.
  split; [exact ratings_with_zero_pivot|]. split; [right; now left|].
  intros (rows & Hrows & _ & H).
  vm_compute in Hrows. injection Hrows as <-.
  specialize (H 40%Z "d"%string (or_introl eq_refl)).
  vm_compute in H. discriminate.
Qed.

(** C2 (amended). For a user of the rating matrix and every [n], the frame
    [top_recommendations] from which the titles are looked up is in descending
    order of predicted rating, NaN predictions last; the returned titles are
    those of the rows of [movies_data] whose movie is in that frame, in the
    order of [movies_data]. *)
Theorem top_n_sorted_then_listed_in_catalogue_order (R : DataFrame)
    (M : list (label * string)) (active_user : label) (n : Z) :
  pivot_table R -> In active_user (index R) ->
  exists top,
    top_recommendations R active_user n = Some top /\
    StronglySorted by_value_descending top /\
    find_top_n_recommendations R M active_user n
    = Some (map snd (filter (fun m => isin (fst m) (map fst top)) M)).
Proof.
  intros Hpivot Hactive.
  destruct (top_recommendations_eq R Hpivot active_user Hactive n)
    as (predicted & a & _ & _ & _ & Htop).
  eexists. split; [exact Htop|]. split.
  - apply strongly_sorted_slice_to, sort_values_desc_sorted.
  - unfold find_top_n_recommendations, top_recommendations_titles.
    rewrite Htop. reflexivity.
Qed.

Lemma top_n_sorted_then_listed_in_catalogue_order_witness :
  pivot_table ratings_two_unrated /\ In 1%Z (index ratings_two_unrated) /\
  exists top,
    top_recommendations ratings_two_unrated 1%Z 10%Z = Some top /\
    StronglySorted by_value_descending top /\
    find_top_n_recommendations ratings_two_unrated movies_five 1%Z 10%Z
    = Some (map snd (filter (fun m => isin (fst m) (map fst top)) movies_five)).
Proof.
  split; [exact ratings_two_unrated_pivot|]. split; [now left|].
  apply top_n_sorted_then_listed_in_catalogue_order;
    [exact ratings_two_unrated_pivot | now left].
Defined.

(** C2 as worded fails: for user 1 the titles of movies 40 and 50 are returned
    in this order, and the prediction for movie 40 is the smaller one. *)
Lemma top_n_returned_in_catalogue_order :
  pivot_table ratings_two_unrated /\ In 1%Z (index ratings_two_unrated) /\
  find_top_n_recommendations ratings_two_unrated movies_five 1%Z 10%Z
  = Some ["d"; "e"]%string /\
  ~ returned_in_rating_order ratings_two_unrated movies_five 1%Z 10%Z.
Proof.
  split; [exact ratings_two_unrated_pivot|]. split; [now left|].
  split; [reflexivity|].
  intros (rows & predicted & Hrows & _ & Hp & Hs).
  vm_compute in Hrows. injection Hrows as <-.
  vm_compute in Hp. injection Hp as <-.
  inversion Hs as [|? ? _ Hall]; subst.
  inversion Hall as [|? ? Hd _]; subst.
  destruct (Hd _ _ eq_refl eq_refl) as [E|E]; vm_compute in E; discriminate.
Qed.

(** ** Assigning a row of a frame *)

Lemma string_app_assoc (a b c : string) :
  ((a ++ b) ++ c)%string = (a ++ (b ++ c))%string.
Proof. induction a as [|x a IH]; simpl; [reflexivity | now rewrite IH]. Qed.

Lemma string_app_nil_r (a : string) : (a ++ "")%string = a.
Proof. induction a as [|x a IH]; simpl; [reflexivity | now rewrite IH]. Qed.

Section Assignment.
Context {A : Type}.

Lemma replace_nth_length (p : nat) (x : A) (l : list A) :
  length (replace_nth p x l) = length l.
Proof.
  revert p. induction l as [|y l IH]; intros [|p]; simpl; try reflexivity.
  now rewrite IH.
Qed.

Lemma replace_nth_same (p : nat) (x : A) (l : list A) :
  (p < length l)%nat -> nth_error (replace_nth p x l) p = Some x.
Proof.
  revert p. induction l as [|y l IH]; intros [|p] H; simpl in *;
    try lia; try reflexivity.
  apply IH. lia.
Qed.

Lemma replace_nth_other (p q : nat) (x : A) (l : list A) :
  p <> q -> nth_error (replace_nth p x l) q = nth_error l q.
Proof.
  revert p q. induction l as [|y l IH]; intros [|p] [|q] H; simpl;
    try reflexivity; try congruence.
  apply IH. congruence.
Qed.

Lemma replace_nth_forall (P : A -> Prop) (p : nat) (x : A) (l : list A) :
  P x -> Forall P l -> Forall P (replace_nth p x l).
Proof.
  intros Hx Hl. revert p. induction Hl as [|y l Hy Hl IH]; intros [|p]; simpl;
    constructor; auto.
Qed.
End Assignment.

Lemma loc_row_set_row_same (F : DataFrame) (i : label) (v old : list float) :
  loc_row F i = Some old -> loc_row (set_row F i v) i = Some v.
Proof.
  unfold loc_row, set_row. intros H. apply bind_inv in H.
  destruct H as (p & Hp & Hnth). rewrite Hp. simpl. rewrite Hp. simpl.
  apply replace_nth_same. apply nth_error_Some. congruence.
Qed.

Lemma loc_row_set_row_other (F : DataFrame) (i i' : label) (v : list float) :
  i' <> i -> loc_row (set_row F i v) i' = loc_row F i'.
Proof.
  intros Hne. unfold loc_row, set_row.
  destruct (get_loc i (index F)) as [p|] eqn:Hp; [|reflexivity]. simpl.
  destruct (get_loc i' (index F)) as [p'|] eqn:Hp'; [|reflexivity]. simpl.
  apply replace_nth_other. intros ->.
  apply get_loc_nth in Hp, Hp'. congruence.
Qed.

Lemma range_index_length (K : nat) : length (range_index K) = K.
Proof. unfold range_index. now rewrite length_map, length_seq. Qed.

Lemma factor_shape_rectangular (idx : list label) (K : nat) (F : DataFrame) :
  factor_shape idx K F -> rectangular F.
Proof.
  intros (Hi & Hc & Hlen & Hrows). split; [congruence|].
  now rewrite Hc, range_index_length.
Qed.

Lemma factor_shape_loc_row (idx : list label) (K : nat) (F : DataFrame) (i : label) :
  factor_shape idx K F -> In i idx ->
  exists v, loc_row F i = Some v /\ length v = K.
Proof.
  intros HF Hi. pose proof (factor_shape_rectangular _ _ _ HF) as Hrect.
  destruct HF as (Hidx & Hc & _). rewrite <- Hidx in Hi.
  destruct (loc_row_in F Hrect i Hi) as (v & Hv & Hlen).
  exists v. split; [exact Hv|]. now rewrite Hlen, Hc, range_index_length.
Qed.

Lemma set_row_shape (idx : list label) (K : nat) (F : DataFrame) (i : label)
    (v : list float) :
  factor_shape idx K F -> length v = K -> factor_shape idx K (set_row F i v).
Proof.
  intros (Hi & Hc & Hlen & Hrows) Hv. unfold set_row.
  destruct (get_loc i (index F)) as [p|]; [|now repeat split].
  repeat split; simpl; try assumption.
  - now rewrite replace_nth_length.
  - now apply replace_nth_forall.
Qed.

Lemma rand_shape (rnd : nat -> float) (start n k : nat) :
  length (rand rnd start n k) = n /\
  Forall (fun row => length row = k) (rand rnd start n k).
Proof.
  unfold rand. split.
  - now rewrite length_map, length_seq.
  - apply Forall_forall. intros row Hrow. apply in_map_iff in Hrow.
    destruct Hrow as (i & <- & _). now rewrite length_map, length_seq.
Qed.

Lemma init_store_shape (R : DataFrame) (K : nat) (rnd : nat -> float) :
  store_shape R K (init_store R K rnd).
Proof.
  unfold store_shape, factor_shape, init_store. simpl.
  repeat split; apply rand_shape.
Qed.

(** ** One stochastic gradient step *)

Section GradientStep.
Local Open Scope float_scope.
Variables gamma lamda : float.

Lemma moved_length (eij : float) (x y : list float) (K : nat) :
  length x = K -> length y = K -> length (moved gamma lamda eij x y) = K.
Proof.
  intros Hx Hy. unfold moved, Np.add, Np.subtract, Np.scale.
  rewrite zip_with_length, length_map, zip_with_length, !length_map. lia.
Qed.

Lemma sgd_update_eq (s : store) (i j : label) (r : float) (p q : list float) :
  loc_row (sP s) i = Some p -> loc_row (sQ s) j = Some q ->
  let eij := r - Np.dot p q in
  let p' := moved gamma lamda eij p q in
  sgd_update gamma lamda s i j r
  = Some (mkStore (sR s) (set_row (sP s) i p')
                  (set_row (sQ s) j (moved gamma lamda eij q p'))).
Proof.
  intros Hp Hq eij p'. unfold sgd_update. rewrite Hp, Hq. simpl.
  rewrite (loc_row_set_row_same (sP s) i _ p Hp). reflexivity.
Qed.

Lemma sgd_update_shape (R : DataFrame) (K : nat) (s : store) (i j : label)
    (r : float) :
  store_shape R K s -> In i (index R) -> In j (columns R) ->
  exists s', sgd_update gamma lamda s i j r = Some s' /\ store_shape R K s'.
Proof.
  intros (HR & HP & HQ) Hi Hj.
  destruct (factor_shape_loc_row _ _ _ i HP Hi) as (p & Hp & Hpl).
  destruct (factor_shape_loc_row _ _ _ j HQ Hj) as (q & Hq & Hql).
  rewrite (sgd_update_eq s i j r p q Hp Hq). eexists. split; [reflexivity|].
  assert (Hp' : length (moved gamma lamda (r - Np.dot p q) p q) = K)
    by now apply moved_length.
  split; [exact HR|]. simpl.
  split; apply set_row_shape; try assumption.
  now apply moved_length.
Qed.

Lemma sgd_cell_shape (R : DataFrame) (K : nat) (s : store) (i j : label) :
  rectangular R -> store_shape R K s -> In i (index R) -> In j (columns R) ->
  exists s', sgd_cell gamma lamda s i j = Some s' /\ store_shape R K s'.
Proof.
  intros Hrect Hs Hi Hj. unfold sgd_cell.
  destruct Hs as (HR & HPQ). rewrite HR.
  rewrite (loc_cell_in R Hrect i j Hi Hj). simpl.
  destruct (0 <? rating R i j).
  - apply sgd_update_shape; [now split | exact Hi | exact Hj].
  - exists s. split; [reflexivity | now split].
Qed.

Lemma sgd_epoch_shape (R : DataFrame) (K : nat) (s : store) :
  rectangular R -> store_shape R K s ->
  exists s', sgd_epoch gamma lamda s = Some s' /\ store_shape R K s'.
Proof.
  intros Hrect Hs. unfold sgd_epoch.
  rewrite (proj1 Hs).
  apply (foldM_invariant (store_shape R K)); [|exact Hs].
  intros s1 i Hi Hs1. rewrite (proj1 Hs1).
  apply (foldM_invariant (store_shape R K)); [|exact Hs1].
  intros s2 j Hj Hs2. now apply sgd_cell_shape.
Qed.
End GradientStep.

(** ** The objective and the training loop *)

Lemma fold_left_filter {A B : Type} (f : B -> bool) (g : A -> B -> A)
    (l : list B) (a : A) :
  fold_left (fun a x => if f x then g a x else a) l a = fold_left g (filter f l) a.
Proof.
  revert a. induction l as [|x l IH]; intros a; simpl; [reflexivity|].
  destruct (f x); simpl; apply IH.
Qed.

Lemma fold_left_pairs {A B C : Type} (h : C -> A * B -> C) (l : list A)
    (l' : list B) (c : C) :
  fold_left (fun c x => fold_left (fun c y => h c (x, y)) l' c) l c
  = fold_left h (list_prod l l') c.
Proof.
  revert c. induction l as [|x l IH]; intros c; simpl; [reflexivity|].
  rewrite fold_left_app, <- IH. f_equal. clear IH.
  generalize c. induction l' as [|y l' IH']; intros c'; simpl;
    [reflexivity | apply IH'].
Qed.

Section Training.
Local Open Scope float_scope.
Variables gamma lamda : float.
Variable R : DataFrame.
Variable K : nat.
Hypothesis Hrect : rectangular R.

Lemma objective_cell_eq (s : store) (i j : label) (e : float) :
  store_shape R K s -> In i (index R) -> In j (columns R) ->
  objective_cell lamda s i j e
  = Some (if positive (rating (sR s) i j)
          then objective_term lamda s (i, j) e else e).
Proof.
  intros (HR & HP & HQ) Hi Hj. unfold objective_cell, objective_term, factor.
  rewrite HR, (loc_cell_in R Hrect i j Hi Hj). simpl. unfold positive.
  destruct (0 <? rating R i j); [|reflexivity].
  destruct (factor_shape_loc_row _ _ _ i HP Hi) as (p & -> & _).
  destruct (factor_shape_loc_row _ _ _ j HQ Hj) as (q & -> & _).
  reflexivity.
Qed.

Lemma objective_eq (s : store) :
  store_shape R K s -> objective lamda s = Some (total_objective positive lamda s).
Proof.
  intros Hs. unfold objective, total_objective.
  rewrite <- fold_left_filter, <- fold_left_pairs.
  rewrite (proj1 Hs).
  apply (foldM_total
           (fun e i => foldM (fun e j => objective_cell lamda s i j e) (columns R) e)
           (fun e i => fold_left
              (fun e j => if positive (rating R (fst (i, j)) (snd (i, j)))
                          then objective_term lamda s (i, j) e else e)
              (columns R) e)).
  intros e i Hi.
  apply (foldM_total (fun e j => objective_cell lamda s i j e)).
  intros e' j Hj. rewrite (objective_cell_eq s i j e' Hs Hi Hj).
  now rewrite (proj1 Hs).
Qed.

Lemma train_spec (steps : nat) (s0 : store) (out : string) :
  store_shape R K s0 ->
  exists (m : nat) (s : store) (out' : string),
    (m <= steps)%nat /\
    iterM (sgd_epoch gamma lamda) m s0 = Some s /\
    store_shape R K s /\
    train gamma lamda steps s0 out = Some (s, out') /\
    (forall t st, (0 < t < m)%nat ->
        iterM (sgd_epoch gamma lamda) t s0 = Some st ->
        (total_objective positive lamda st <? 0.001) = false) /\
    ((m = steps /\
      (m = 0%nat \/ (total_objective positive lamda s <? 0.001) = false) /\
      out' = (out ++ dots m)%string)
     \/
     ((0 < m)%nat /\
      (total_objective positive lamda s <? 0.001) = true /\
      out' = (out ++ dots (m - 1))%string)).
Proof.
  revert s0 out. induction steps as [|steps IH]; intros s0 out Hs0.
  - exists 0%nat, s0, out. simpl.
    split; [lia|]. split; [reflexivity|]. split; [exact Hs0|].
    split; [reflexivity|]. split; [intros t st Ht; lia|].
    left. split; [reflexivity|]. split; [now left|].
    now rewrite string_app_nil_r.
  - destruct (sgd_epoch_shape gamma lamda R K s0 Hrect Hs0) as (s1 & He & Hs1).
    simpl. rewrite He. simpl. rewrite (objective_eq s1 Hs1). simpl.
    destruct (total_objective positive lamda s1 <? 0.001) eqn:Hconv.
    + exists 1%nat, s1, out. simpl. rewrite He. simpl.
      split; [lia|]. split; [reflexivity|]. split; [exact Hs1|].
      split; [reflexivity|]. split; [intros t st Ht; lia|].
      right. split; [lia|]. split; [exact Hconv|].
      now rewrite string_app_nil_r.
    + destruct (IH s1 (out ++ ".")%string Hs1)
        as (m & s & out' & Hm & Hit & Hs & Htr & Hbefore & Hend).
      exists (S m), s, out'. simpl. rewrite He. simpl.
      split; [lia|]. split; [exact Hit|]. split; [exact Hs|].
      split; [exact Htr|]. split.
      * intros [|t] st Ht; [lia|]. simpl. rewrite He. simpl.
        destruct t as [|t].
        -- intros [= <-]. exact Hconv.
        -- apply Hbefore. lia.
      * destruct Hend as [(-> & Hlast & ->)|(Hpos & Hlast & ->)].
        -- left. split; [reflexivity|]. split.
           ++ right. destruct Hlast as [->|Hlast]; [|exact Hlast].
              simpl in Hit. injection Hit as <-. exact Hconv.
           ++ now rewrite string_app_assoc.
        -- right. split; [lia|]. split; [exact Hlast|].
           rewrite string_app_assoc. destruct m as [|m]; [lia|].
           simpl. now rewrite Nat.sub_0_r.
Qed.
End Training.

(** ** Cells that are not strictly positive *)

Lemma foldM_ext {A T : Type} (f g : T -> A -> option T) (l : list A) (s : T) :
  (forall s' x, f s' x = g s' x) -> foldM f l s = foldM g l s.
Proof.
  intros Hfg. revert s. induction l as [|x l IH]; intros s; simpl;
    [reflexivity|].
  rewrite Hfg. destruct (g s x); simpl; [apply IH | reflexivity].
Qed.

Lemma foldM_commute {A T : Type} (h : T -> T) (f f' : T -> A -> option T)
    (l : list A) (s : T) :
  (forall s' x, f' (h s') x = option_map h (f s' x)) ->
  foldM f' l (h s) = option_map h (foldM f l s).
Proof.
  intros Hf. revert s. induction l as [|x l IH]; intros s; simpl;
    [reflexivity|].
  rewrite Hf. destruct (f s x); simpl; [apply IH | reflexivity].
Qed.

Section Masking.
Local Open Scope float_scope.
Variables gamma lamda : float.

Lemma loc_row_missing_unless_positive (R : DataFrame) (i : label) :
  loc_row (missing_unless_positive R) i
  = option_map (map (fun r => if 0 <? r then r else nan)) (loc_row R i).
Proof.
  unfold loc_row. simpl. destruct (get_loc i (index R)); simpl;
    [apply nth_error_map | reflexivity].
Qed.

Lemma loc_cell_missing_unless_positive (R : DataFrame) (i j : label) :
  loc_cell (missing_unless_positive R) i j
  = option_map (fun r => if 0 <? r then r else nan) (loc_cell R i j).
Proof.
  unfold loc_cell. rewrite loc_row_missing_unless_positive.
  destruct (loc_row R i); simpl; [|reflexivity].
  destruct (get_loc j (columns R)); simpl;
    [apply nth_error_map | reflexivity].
Qed.

Lemma sgd_update_masked (s : store) (i j : label) (r : float) :
  sgd_update gamma lamda (masked s) i j r
  = option_map masked (sgd_update gamma lamda s i j r).
Proof.
  unfold sgd_update. simpl.
  destruct (loc_row (sP s) i); simpl; [|reflexivity].
  destruct (loc_row (sQ s) j); simpl; [|reflexivity].
  destruct (loc_row (set_row (sP s) i _) i); reflexivity.
Qed.

Lemma sgd_cell_masked (s : store) (i j : label) :
  sgd_cell gamma lamda (masked s) i j
  = option_map masked (sgd_cell gamma lamda s i j).
Proof.
  unfold sgd_cell. simpl. rewrite loc_cell_missing_unless_positive.
  destruct (loc_cell (sR s) i j) as [r|]; simpl; [|reflexivity].
  destruct (0 <? r) eqn:E.
  - rewrite E. apply sgd_update_masked.
  - reflexivity.
Qed.

Lemma sgd_epoch_masked (s : store) :
  sgd_epoch gamma lamda (masked s) = option_map masked (sgd_epoch gamma lamda s).
Proof.
  unfold sgd_epoch. simpl.
  apply (foldM_commute masked
           (fun s i => foldM (fun s j => sgd_cell gamma lamda s i j)
                             (columns (sR s)) s)).
  intros s1 i. simpl.
  apply (foldM_commute masked (fun s j => sgd_cell gamma lamda s i j)).
  intros s2 j. apply sgd_cell_masked.
Qed.

Lemma objective_cell_masked (s : store) (i j : label) (e : float) :
  objective_cell lamda (masked s) i j e = objective_cell lamda s i j e.
Proof.
  unfold objective_cell. simpl. rewrite loc_cell_missing_unless_positive.
  destruct (loc_cell (sR s) i j) as [r|]; simpl; [|reflexivity].
  destruct (0 <? r) eqn:E; [now rewrite E | reflexivity].
Qed.

Lemma objective_masked (s : store) :
  objective lamda (masked s) = objective lamda s.
Proof.
  unfold objective. simpl. apply foldM_ext. intros e i.
  apply foldM_ext. intros e' j. apply objective_cell_masked.
Qed.

Lemma train_masked (steps : nat) (s : store) (out : string) :
  train gamma lamda steps (masked s) out
  = option_map (fun r => (masked (fst r), snd r)) (train gamma lamda steps s out).
Proof.
  revert s out. induction steps as [|steps IH]; intros s out; simpl;
    [reflexivity|].
  rewrite sgd_epoch_masked.
  destruct (sgd_epoch gamma lamda s) as [s'|]; simpl; [|reflexivity].
  rewrite objective_masked.
  destruct (objective lamda s') as [e|]; simpl; [|reflexivity].
  destruct (e <? 0.001); [reflexivity | apply IH].
Qed.

Lemma perform_matrix_factorization_masked (R : DataFrame) (K : nat)
    (steps : Z) (rnd : nat -> float) :
  perform_matrix_factorization gamma lamda (missing_unless_positive R) K steps rnd
  = perform_matrix_factorization gamma lamda R K steps rnd.
Proof.
  unfold perform_matrix_factorization.
  change (init_store (missing_unless_positive R) K rnd)
    with (masked (init_store R K rnd)).
  rewrite train_masked.
  destruct (train gamma lamda (Z.to_nat steps) (init_store R K rnd) "");
    reflexivity.
Qed.
End Masking.

Lemma ratings_single_zero_rectangular : rectangular ratings_single_zero.
Proof. split; [reflexivity | repeat constructor]. Defined.

(** C5. For a rating the epoch visits (a cell [> 0]), with [p] and [q] the
    factor vectors of its user and movie and [eij] the error of their dot
    product, the user's vector becomes [p' = p + gamma*(eij*q - lamda*p)] first,
    and the movie's vector then becomes [q + gamma*(eij*p' - lamda*q)], which
    uses the user's vector just assigned; [R] and the other rows of both factor
    matrices are as before. *)
Theorem sgd_step_updates_user_then_item (gamma lamda : float) (s : store)
    (i j : label) (r : float) (p q : list float) :
  loc_cell (sR s) i j = Some r -> (0 <? r)%float = true ->
  loc_row (sP s) i = Some p -> loc_row (sQ s) j = Some q ->
  let eij := (r - Np.dot p q)%float in
  let p' := Np.add p (Np.scale gamma
              (Np.subtract (Np.scale eij q) (Np.scale lamda p))) in
  let q' := Np.add q (Np.scale gamma
              (Np.subtract (Np.scale eij p') (Np.scale lamda q))) in
  exists s',
    sgd_cell gamma lamda s i j = Some s' /\
    sR s' = sR s /\
    loc_row (sP s') i = Some p' /\
    loc_row (sQ s') j = Some q' /\
    (forall i', i' <> i -> loc_row (sP s') i' = loc_row (sP s) i') /\
    (forall j', j' <> j -> loc_row (sQ s') j' = loc_row (sQ s) j').
Proof.
  intros Hr Hpos Hp Hq eij p' q'.
  unfold sgd_cell. rewrite Hr. simpl. rewrite Hpos.
  rewrite (sgd_update_eq gamma lamda s i j r p q Hp Hq).
  eexists. split; [reflexivity|]. simpl.
  split; [reflexivity|].
  split; [exact (loc_row_set_row_same _ _ _ _ Hp)|].
  split; [exact (loc_row_set_row_same _ _ _ _ Hq)|].
  split; intros l Hl; now apply loc_row_set_row_other.
Qed.

Lemma sgd_step_updates_user_then_item_witness :
  let s := init_store ratings_with_zero 2 draws_sixteenths in
  let p := [0.0625; 0.125]%float in
  let q := [0.3125; 0.375]%float in
  let eij := (5 - Np.dot p q)%float in
  let p' := Np.add p (Np.scale 0.001
              (Np.subtract (Np.scale eij q) (Np.scale 0.02 p))) in
  let q' := Np.add q (Np.scale 0.001
              (Np.subtract (Np.scale eij p') (Np.scale 0.02 q))) in
  exists s',
    sgd_cell 0.001 0.02 s 1%Z 10%Z = Some s' /\
    sR s' = sR s /\
    loc_row (sP s') 1%Z = Some p' /\
    loc_row (sQ s') 10%Z = Some q' /\
    (forall i', i' <> 1%Z -> loc_row (sP s') i' = loc_row (sP s) i') /\
    (forall j', j' <> 10%Z -> loc_row (sQ s') j' = loc_row (sQ s) j').
Proof.
  exact (sgd_step_updates_user_then_item 0.001 0.02
           (init_store ratings_with_zero 2 draws_sixteenths) 1%Z 10%Z 5%float
           [0.0625; 0.125]%float [0.3125; 0.375]%float
           eq_refl eq_refl eq_refl eq_refl).
Defined.

(** The movie's new vector is not the one a simultaneous update of both
    vectors from their old values would give. *)
Lemma sgd_step_is_not_simultaneous :
  let s := init_store ratings_with_zero 2 draws_sixteenths in
  let p := [0.0625; 0.125]%float in
  let q := [0.3125; 0.375]%float in
  let eij := (5 - Np.dot p q)%float in
  exists s',
    sgd_cell 0.001 0.02 s 1%Z 10%Z = Some s' /\
    loc_row (sQ s') 10%Z <> Some (moved 0.001 0.02 eij q p).
Proof.
  intros s p q eij. eexists. split; [reflexivity|]. intros H.
  apply (f_equal (fun o : option (list float) =>
                    match o with
                    | Some [x; _] =>
                        (x =? nth 0 (moved 0.001 0.02 eij q p) nan)%float
                    | _ => false
                    end)) in H.
  vm_compute in H. discriminate.
Qed.

(** C6 (amended). For a rectangular rating matrix, the training loop performs
    at most [steps] epochs; after each epoch it computes the objective, the sum
    over the cells whose rating is strictly positive of the squared error plus
    [lamda] times the squared norms of the two factor vectors, and stops as
    soon as it is below 0.001; the factor matrices are returned whether or not
    this happens. *)
Theorem training_stops_on_objective_or_steps (gamma lamda : float)
    (R : DataFrame) (K : nat) (steps : Z) (rnd : nat -> float) :
  rectangular R ->
  stops_on_objective positive gamma lamda R K steps rnd.
Proof.
  intros Hrect.
  destruct (train_spec gamma lamda R K Hrect (Z.to_nat steps)
              (init_store R K rnd) "" (init_store_shape R K rnd))
    as (m & s & out & Hm & Hit & _ & Htr & Hbefore & Hend).
  exists m, s, out. split; [exact Hm|]. split; [exact Hit|].
  split; [|split; [exact Hbefore | exact Hend]].
  unfold perform_matrix_factorization. rewrite Htr. reflexivity.
Qed.

Lemma training_stops_on_objective_or_steps_witness :
  rectangular ratings_with_zero /\
  stops_on_objective positive 0.001 0.02 ratings_with_zero 2 3 draws_sixteenths.
Proof.
  split; [exact (proj1 ratings_with_zero_pivot)|].
  apply training_stops_on_objective_or_steps.
  exact (proj1 ratings_with_zero_pivot).
Defined.

(** C6 as worded fails: on the matrix whose only rating is 0 the loop stops
    after the first epoch and prints no dot, while the objective summed over
    the known ratings is 0.0725 after every epoch. *)
Lemma training_stops_although_a_known_rating_is_off :
  rectangular ratings_single_zero /\
  perform_matrix_factorization 0.001 0.02 ratings_single_zero 1 2 draws_half
  = Some ((mkFrame [1]%Z [0]%Z [[0.5]]%float,
           mkFrame [1]%Z [0]%Z [[0.5]]%float), ""%string) /\
  ~ stops_on_objective present 0.001 0.02 ratings_single_zero 1 2 draws_half.
Proof.
  split; [exact ratings_single_zero_rectangular|]. split; [reflexivity|].
  intros (m & s & out & Hm & Hit & Hp & _ & Hend).
  assert (Hout : out = ""%string).
  { apply (f_equal (option_map snd)) in Hp. vm_compute in Hp.
    now injection Hp as <-. }
  assert (Hobj : (total_objective present 0.02 s <? 0.001)%float = false
                 \/ (2 < m)%nat).
  { destruct m as [|[|[|m]]]; [| | |right; lia]; left;
      vm_compute in Hit; injection Hit as <-; reflexivity. }
  destruct Hend as [(-> & _ & ->)|(_ & Hlast & _)].
  - discriminate.
  - destruct Hobj as [Hobj|Hbig].
    + rewrite Hobj in Hlast. discriminate.
    + change (Z.to_nat 2) with 2%nat in Hm. lia.
Qed.

Lemma nodup_labels_filter {B : Type} (f : label * B -> bool)
    (l : list (label * B)) :
  NoDup (map fst l) -> NoDup (map fst (filter f l)).
Proof.
  induction l as [|x l IH]; simpl; intros H; [constructor|].
  inversion H as [|? ? Hx Hl]; subst.
  destruct (f x); simpl; [|now apply IH].
  constructor; [|now apply IH].
  intros Hin. apply Hx. apply in_map_iff in Hin.
  destruct Hin as (y & Hy & Hin). apply filter_In in Hin.
  apply in_map_iff. exists y. split; [exact Hy | apply Hin].
Qed.

Lemma filter_absorbs {A : Type} (f g : A -> bool) (l : list A) :
  (forall x, f x = true -> g x = true) -> filter f (filter g l) = filter f l.
Proof.
  intros H. induction l as [|x l IH]; simpl; [reflexivity|].
  destruct (g x) eqn:Eg; simpl.
  - now rewrite IH.
  - destruct (f x) eqn:Ef; [|exact IH].
    rewrite (H x Ef) in Eg. discriminate.
Qed.

(** C9 (amended). A cell holding a rating [r <= 0] fails the test [> 0] like a
    missing one (NaN).  In the factor training this makes it missing
    altogether: the cell triggers no update and adds nothing to the objective,
    and training on the matrix in which every cell that is not strictly
    positive is replaced by NaN returns the same factor matrices and prints
    the same output.  In the neighbourhood prediction it makes the neighbour
    add no term for that movie: the round of the inner loop leaves the
    predicted rating as it is, and the prediction of the movie is the one
    computed without this neighbour.  (The rating still counts in
    [np.nanmean], so it is not missing for the means and the similarities.) *)
Theorem nonpositive_rating_is_handled_as_missing (gamma lamda : float)
    (R : DataFrame) (K : nat) (steps : Z) (rnd : nat -> float) :
  (forall (nearest : Series) (i j : label) (r acc : float),
      loc_cell R j i = Some r ->
      (r <=? 0)%float = true \/ Np.isnan r = true ->
      neighbour_step R nearest i acc j = Some acc) /\
  (forall (nearest : Series) (active_user i j : label) (r : float),
      pivot_table R -> In active_user (index R) -> In i (columns R) ->
      NoDup (map fst nearest) -> incl (map fst nearest) (index R) ->
      loc_cell R j i = Some r ->
      (r <=? 0)%float = true \/ Np.isnan r = true ->
      predict_movie R nearest active_user i
      = predict_movie R (filter (fun js => negb (Z.eqb (fst js) j)) nearest)
                      active_user i) /\
  (forall (s : store) (i j : label) (r e : float),
      loc_cell (sR s) i j = Some r ->
      (r <=? 0)%float = true \/ Np.isnan r = true ->
      sgd_cell gamma lamda s i j = Some s /\
      objective_cell lamda s i j e = Some e) /\
  perform_matrix_factorization gamma lamda (missing_unless_positive R) K steps rnd
  = perform_matrix_factorization gamma lamda R K steps rnd.
Proof.
  assert (Hskip : forall r : float,
             (r <=? 0)%float = true \/ Np.isnan r = true -> (0 <? r)%float = false).
  { intros r [H|H]; [now apply F64.positive_not_leb
                    | now apply F64.positive_not_nan]. }
  split; [|split; [|split]].
  - intros nearest i j r acc Hr Hle. unfold neighbour_step.
    rewrite Hr. simpl. now rewrite (Hskip r Hle).
  - intros nearest active_user i j r Hpivot Hactive Hi Hnd Hincl Hr Hle.
    rewrite (predict_movie_eq R Hpivot active_user Hactive nearest i
               Hi Hnd Hincl).
    rewrite (predict_movie_eq R Hpivot active_user Hactive
               (filter (fun js => negb (Z.eqb (fst js) j)) nearest) i Hi).
    + f_equal. unfold weighted_deviations. f_equal.
      symmetry. apply filter_absorbs. intros [j' s'] Hpos. simpl in *.
      apply negb_true_iff. apply Z.eqb_neq. intros ->.
      unfold rating in Hpos. rewrite Hr in Hpos.
      unfold positive in Hpos. rewrite (Hskip r Hle) in Hpos. discriminate.
    + now apply nodup_labels_filter.
    + intros l Hl. apply Hincl. apply in_map_iff in Hl.
      destruct Hl as (js & <- & Hjs). apply filter_In in Hjs.
      apply in_map. apply Hjs.
  - intros s i j r e Hr Hle. unfold sgd_cell, objective_cell.
    rewrite Hr. simpl. rewrite (Hskip r Hle). split; reflexivity.
  - apply perform_matrix_factorization_masked.
Qed.

Lemma nonpositive_rating_is_handled_as_missing_witness :
  neighbour_step ratings_with_zero [(2%Z, 2%float); (1%Z, 0%float)] 40%Z 2.75%float 2%Z
  = Some 2.75%float /\
  predict_movie ratings_with_zero [(2%Z, 2%float); (1%Z, 0%float)] 1%Z 40%Z
  = predict_movie ratings_with_zero
      (filter (fun js => negb (Z.eqb (fst js) 2)) [(2%Z, 2%float); (1%Z, 0%float)])
      1%Z 40%Z /\
  sgd_cell 0.001 0.02 (init_store ratings_with_zero 2 draws_sixteenths) 2%Z 40%Z
  = Some (init_store ratings_with_zero 2 draws_sixteenths) /\
  perform_matrix_factorization 0.001 0.02
    (missing_unless_positive ratings_with_zero) 2 3 draws_sixteenths
  = perform_matrix_factorization 0.001 0.02 ratings_with_zero 2 3 draws_sixteenths.
Proof.
  destruct (nonpositive_rating_is_handled_as_missing 0.001 0.02
              ratings_with_zero 2 3 draws_sixteenths) as (Hn & Hp & Hs & Hm).
  split; [|split; [|split]].
  - exact (Hn [(2%Z, 2%float); (1%Z, 0%float)] 40%Z 2%Z 0%float 2.75%float
              eq_refl (or_introl eq_refl)).
  - apply (Hp [(2%Z, 2%float); (1%Z, 0%float)] 1%Z 40%Z 2%Z 0%float
              ratings_with_zero_pivot).
    + now left.
    + simpl. intuition.
    + repeat constructor; simpl; intuition discriminate.
    + intros l Hl. simpl in *. intuition.
    + reflexivity.
    + left. reflexivity.
  - exact (proj1 (Hs (init_store ratings_with_zero 2 draws_sixteenths)
                     2%Z 40%Z 0%float 0%float eq_refl (or_introl eq_refl))).
  - exact Hm.
Defined.

(** C9 as worded fails for the neighbourhood prediction: user 2 has rated
    movie 40 with the value 0; with this rating missing instead, the
    predictions for user 1 are others (4.083 instead of 5.75 for movie 10),
    because the 0 counts in the mean of user 2 and hence in the similarity. *)
Lemma nonpositive_rating_counts_in_the_means :
  pivot_table ratings_with_zero /\ In 1%Z (index ratings_with_zero) /\
  loc_cell ratings_with_zero 2%Z 40%Z = Some 0%float /\
  loc_cell (missing_unless_positive ratings_with_zero) 2%Z 40%Z = Some nan /\
  find_nearest_neighbour_ratings (missing_unless_positive ratings_with_zero) 1%Z 10%Z
  <> find_nearest_neighbour_ratings ratings_with_zero 1%Z 10%Z.
Proof.
  split; [exact ratings_with_zero_pivot|]. split; [now left|].
  split; [reflexivity|]. split; [reflexivity|].
  intros H.
  apply (f_equal (fun o : option Series =>
                    match o with
                    | Some ((_, x) :: _) => (x =? 5.75)%float
                    | _ => false
                    end)) in H.
  vm_compute in H. discriminate.
Qed.

(** C10. For a rectangular rating matrix [R] and [K] factors, after any number
    of epochs, and in the result of the training, [P] is indexed by the users
    of [R] and [Q] by its movies, each with one row of [K] entries per label,
    and [R] is the matrix the training started from. *)
Theorem training_keeps_the_shapes (gamma lamda : float) (R : DataFrame)
    (K : nat) (steps : Z) (rnd : nat -> float) :
  rectangular R ->
  (forall t : nat, exists s,
      iterM (sgd_epoch gamma lamda) t (init_store R K rnd) = Some s /\
      store_shape R K s) /\
  (exists s out,
      train gamma lamda (Z.to_nat steps) (init_store R K rnd) "" = Some (s, out) /\
      perform_matrix_factorization gamma lamda R K steps rnd
      = Some ((sP s, sQ s), out) /\
      store_shape R K s).
Proof.
  intros Hrect. split.
  - intros t. apply (iterM_invariant (store_shape R K)).
    + intros s Hs. now apply sgd_epoch_shape.
    + apply init_store_shape.
  - destruct (train_spec gamma lamda R K Hrect (Z.to_nat steps)
                (init_store R K rnd) "" (init_store_shape R K rnd))
      as (m & s & out & _ & _ & Hs & Htr & _).
    exists s, out. split; [exact Htr|]. split; [|exact Hs].
    unfold perform_matrix_factorization. rewrite Htr. reflexivity.
Qed.

Lemma training_keeps_the_shapes_witness :
  rectangular ratings_with_zero /\
  (forall t : nat, exists s,
      iterM (sgd_epoch 0.001 0.02) t
            (init_store ratings_with_zero 2 draws_sixteenths) = Some s /\
      store_shape ratings_with_zero 2 s) /\
  (exists s out,
      train 0.001 0.02 (Z.to_nat 3)
            (init_store ratings_with_zero 2 draws_sixteenths) "" = Some (s, out) /\
      perform_matrix_factorization 0.001 0.02 ratings_with_zero 2 3 draws_sixteenths
      = Some ((sP s, sQ s), out) /\
      store_shape ratings_with_zero 2 s).
Proof.
  split; [exact (proj1 ratings_with_zero_pivot)|].
  apply training_keeps_the_shapes. exact (proj1 ratings_with_zero_pivot).
Defined.

(** * Further properties of the code *)

(** ** When the similarity raises *)

Lemma comprehension_guarded (c1 c2 : list float) (ids : list nat) :
  (forall i, In i ids ->
     (i < length c1)%nat /\
     ((0 <? nth i c1 nan)%float = true -> (i < length c2)%nat)) ->
  comprehension c1 c2 ids = Some (filter (co_rated c1 c2) ids).
Proof.
  induction ids as [|i ids IH]; intros H; simpl; [reflexivity|].
  destruct (H i (or_introl eq_refl)) as [H1 H2].
  rewrite IH by (intros j Hj; apply H; now right).
  unfold both_positive, co_rated.
  rewrite (nth_error_nth' c1 nan H1). simpl.
  destruct (0 <? nth i c1 nan)%float; simpl; [|reflexivity].
  rewrite (nth_error_nth' c2 nan (H2 eq_refl)). simpl.
  destruct (0 <? nth i c2 nan)%float; reflexivity.
Qed.

Lemma comprehension_raises (c1 c2 : list float) (ids : list nat) (i : nat) :
  In i ids -> both_positive c1 c2 i = None -> comprehension c1 c2 ids = None.
Proof.
  induction ids as [|j ids IH]; intros Hi Hnone; [destruct Hi|].
  simpl. destruct Hi as [->|Hi].
  - now rewrite Hnone.
  - destruct (both_positive c1 c2 j); simpl; [|reflexivity].
    now rewrite (IH Hi Hnone).
Qed.

(** X1. [find_similarity] raises (IndexError) exactly when the first vector,
    after centering, has a strictly positive entry at a position past the end
    of the second vector; in particular it never raises when the second vector
    is at least as long as the first. *)
Theorem find_similarity_raises_iff (user_1 user_2 : list float) :
  find_similarity user_1 user_2 = None <->
  exists i, (length user_2 <= i < length user_1)%nat /\
            (0 <? nth i (Np.sub_scalar user_1 (Np.nanmean user_1)) nan)%float = true.
Proof.
  fold (centered user_1). unfold find_similarity.
  fold (centered user_1). fold (centered user_2).
  set (c1 := centered user_1). set (c2 := centered user_2).
  assert (L1 : length c1 = length user_1) by apply centered_length.
  assert (L2 : length c2 = length user_2) by apply centered_length.
  split.
  - intros Hnone.
    destruct (existsb (fun i => (length c2 <=? i)%nat && (0 <? nth i c1 nan)%float)
                      (seq 0 (length c1))) eqn:E.
    + apply existsb_exists in E. destruct E as (i & Hi & Hb).
      apply in_seq in Hi. apply andb_true_iff in Hb. destruct Hb as [Hb1 Hb2].
      apply Nat.leb_le in Hb1. exists i. split; [lia | exact Hb2].
    + exfalso.
      assert (Hok : forall i, In i (seq 0 (length c1)) ->
                 (i < length c1)%nat /\
                 ((0 <? nth i c1 nan)%float = true -> (i < length c2)%nat)).
      { intros i Hi. split; [apply in_seq in Hi; lia|]. intros Hpos.
        destruct (Nat.leb_spec (length c2) i) as [Hle|Hlt]; [|exact Hlt].
        exfalso.
        assert (Hex : existsb (fun i => (length c2 <=? i)%nat
                                        && (0 <? nth i c1 nan)%float)
                              (seq 0 (length c1)) = true).
        { apply existsb_exists. exists i. split; [exact Hi|].
          apply andb_true_iff. split; [now apply Nat.leb_le | exact Hpos]. }
        congruence. }
      unfold common_movieIDs in Hnone.
      rewrite (comprehension_guarded c1 c2 _ Hok) in Hnone. simpl in Hnone.
      rewrite (subset_in_range c1) in Hnone.
      2:{ apply Forall_forall. intros i Hi. apply filter_In in Hi.
          apply (Hok i (proj1 Hi)). }
      rewrite (subset_in_range c2) in Hnone.
      2:{ apply Forall_forall. intros i Hi. apply filter_In in Hi.
          destruct Hi as [Hi Hco]. apply (Hok i Hi).
          unfold co_rated in Hco. apply andb_true_iff in Hco. apply Hco. }
      discriminate.
  - intros (i & Hi & Hpos).
    unfold common_movieIDs.
    rewrite (comprehension_raises c1 c2 _ i); [reflexivity | |].
    + apply in_seq. lia.
    + unfold both_positive.
      rewrite (nth_error_nth' c1 nan) by lia. simpl. rewrite Hpos.
      assert (Hn : nth_error c2 i = None) by (apply nth_error_None; lia).
      now rewrite Hn.
Qed.

(** ** Sorting the rows of a frame *)

Lemma mapM_map {A B C : Type} (f : B -> option C) (h : A -> B) (l : list A) :
  mapM f (map h l) = mapM (fun x => f (h x)) l.
Proof.
  induction l as [|x l IH]; simpl; [reflexivity | now rewrite IH].
Qed.

Lemma mapM_forall2 {A B : Type} (f : A -> option B) (l : list A) (ys : list B) :
  Forall2 (fun x y => f x = Some y) l ys -> mapM f l = Some ys.
Proof.
  induction 1 as [|x y l ys Hxy _ IH]; simpl; [reflexivity|].
  now rewrite Hxy, IH.
Qed.

Lemma strongly_sorted_forall2 {A B : Type} (Q : A -> B -> Prop)
    (R : A -> A -> Prop) (R' : B -> B -> Prop) (l : list A) (l' : list B) :
  (forall a b a' b', Q a a' -> Q b b' -> R a b -> R' a' b') ->
  Forall2 Q l l' -> StronglySorted R l -> StronglySorted R' l'.
Proof.
  intros HQ H. induction H as [|a a' l l' Ha Hl IH]; intros Hs;
    [constructor|].
  inversion Hs as [|? ? Hs' Hall]; subst. constructor; [now apply IH|].
  clear IH Hs Hs'. induction Hl as [|b b' l l' Hb _ IH]; [constructor|].
  inversion Hall; subst. constructor; [now apply (HQ a b) | now apply IH].
Qed.

Section SortRows.
Context {A : Type}.
Variable value : A -> float.

Lemma enumerate_rows (pre rows : list A) :
  Forall2 (row_at value (pre ++ rows))
          (combine (map Z.of_nat (seq (length pre) (length rows)))
                   (map value rows))
          rows.
Proof.
  revert pre. induction rows as [|r rows IH]; intros pre; simpl;
    [constructor|].
  constructor.
  - split; [|reflexivity]. simpl. rewrite Nat2Z.id.
    rewrite nth_error_app2 by lia. now rewrite Nat.sub_diag.
  - specialize (IH (pre ++ [r])).
    rewrite <- app_assoc, length_app in IH. simpl in IH.
    now rewrite Nat.add_1_r in IH.
Qed.

Lemma sort_rows_desc_spec (rows : list A) :
  exists sorted,
    sort_rows_desc value rows = Some sorted /\
    Permutation sorted rows /\
    StronglySorted (fun a b => descending (value a) (value b)) sorted.
Proof.
  pose proof (enumerate_rows [] rows) as HE. simpl in HE.
  fold (positions rows) in HE.
  set (E := combine (positions rows) (map value rows)) in *.
  destruct (Permutation_Forall2 (Permutation_sym (sort_values_desc_perm E)) HE)
    as (sorted & Hperm & HF).
  exists sorted. split; [|split].
  - unfold sort_rows_desc, take_rows. fold E. rewrite mapM_map.
    apply mapM_forall2. revert HF. apply Forall2_impl.
    intros pv r Hr. apply Hr.
  - now apply Permutation_sym.
  - apply (strongly_sorted_forall2 (row_at value rows) by_value_descending _
             (sort_values_desc E) sorted); [|exact HF|].
    + intros a b a' b' [_ Ha] [_ Hb]. unfold by_value_descending.
      now rewrite Ha, Hb.
    + apply sort_values_desc_sorted.
Qed.
End SortRows.

(** ** The user's favourites *)

Lemma slice_to_length {A : Type} (n : Z) (l : list A) :
  (0 <= n)%Z -> length (slice_to n l) = Nat.min (Z.to_nat n) (length l).
Proof.
  intros Hn. unfold slice_to.
  destruct (Z.ltb_spec n 0); [lia | apply length_firstn].
Qed.

Lemma slice_to_all {A : Type} (n : Z) (l : list A) :
  (Z.of_nat (length l) <= n)%Z -> slice_to n l = l.
Proof.
  intros Hn. unfold slice_to.
  destruct (Z.ltb_spec n 0); [lia | apply firstn_all2; lia].
Qed.

(** X2. [find_top_favorite_movies] never raises; for [n >= 0] it returns at
    most [n] titles, and each is the title of a row of [ratings_data] whose
    user is the active user. *)
Theorem favourites_are_the_users_own (ratings_data : list titled_row)
    (active_user : label) (n : Z) :
  exists top_movies,
    find_top_favorite_movies ratings_data active_user n
    = Some (map snd top_movies) /\
    ((0 <= n)%Z -> (length top_movies <= Z.to_nat n)%nat) /\
    forall row, In row top_movies ->
      In row ratings_data /\ RatingRow.userID (fst row) = active_user.
Proof.
  unfold find_top_favorite_movies.
  destruct (sort_rows_desc_spec (fun r => RatingRow.rating (fst r))
              (filter (fun r => Z.eqb (RatingRow.userID (fst r)) active_user)
                      ratings_data))
    as (sorted & -> & Hperm & _).
  simpl. eexists. split; [reflexivity|]. split.
  - intros Hn. rewrite slice_to_length by exact Hn. lia.
  - intros row Hrow. apply slice_to_incl in Hrow.
    apply (Permutation_in _ Hperm) in Hrow. apply filter_In in Hrow.
    destruct Hrow as [Hin Hu]. split; [exact Hin | now apply Z.eqb_eq].
Qed.

(** X3. [find_top_favorite_movies] returns the titles of the first [n] rows of
    an arrangement of all the rows of the active user in descending order of
    rating: in it no row is followed by a row of larger rating, and the rows
    whose rating is NaN come last. *)
Theorem favourites_are_in_rating_order (ratings_data : list titled_row)
    (active_user : label) (n : Z) :
  exists sorted,
    Permutation sorted
      (filter (fun r => Z.eqb (RatingRow.userID (fst r)) active_user)
              ratings_data) /\
    StronglySorted
      (fun a b => descending (RatingRow.rating (fst a)) (RatingRow.rating (fst b)))
      sorted /\
    find_top_favorite_movies ratings_data active_user n
    = Some (map snd (slice_to n sorted)).
Proof.
  unfold find_top_favorite_movies.
  destruct (sort_rows_desc_spec (fun r => RatingRow.rating (fst r))
              (filter (fun r => Z.eqb (RatingRow.userID (fst r)) active_user)
                      ratings_data))
    as (sorted & -> & Hperm & Hsorted).
  exists sorted. split; [exact Hperm|]. split; [exact Hsorted|]. reflexivity.
Qed.

(** X4. When [n] is at least the number of rows of the active user,
    [find_top_favorite_movies] returns the titles of all these rows, each row
    once; for a user without rows it returns the empty list. *)
Theorem favourites_are_complete (ratings_data : list titled_row)
    (active_user : label) (n : Z) :
  let own := filter (fun r => Z.eqb (RatingRow.userID (fst r)) active_user)
                    ratings_data in
  (Z.of_nat (length own) <= n)%Z ->
  exists top_movies,
    find_top_favorite_movies ratings_data active_user n
    = Some (map snd top_movies) /\
    Permutation top_movies own /\
    (own = [] -> top_movies = []).
Proof.
  intros own Hn. unfold find_top_favorite_movies. fold own.
  destruct (sort_rows_desc_spec (fun r => RatingRow.rating (fst r)) own)
    as (sorted & -> & Hperm & _).
  simpl. exists sorted.
  rewrite slice_to_all by (rewrite (Permutation_length Hperm); exact Hn).
  split; [reflexivity|]. split; [exact Hperm|].
  intros Hown. rewrite Hown in Hperm. now apply Permutation_nil.
Qed.

Lemma favourites_are_complete_witness :
  let own := filter (fun r => Z.eqb (RatingRow.userID (fst r)) 1%Z) rated_titles in
  (Z.of_nat (length own) <= 10)%Z /\
  exists top_movies,
    find_top_favorite_movies rated_titles 1%Z 10%Z = Some (map snd top_movies) /\
    Permutation top_movies own /\
    (own = [] -> top_movies = []).
Proof.
  intros own. assert (H : (Z.of_nat (length own) <= 10)%Z) by (vm_compute; discriminate).
  split; [exact H|]. exact (favourites_are_complete rated_titles 1%Z 10%Z H).
Defined.

(** ** The neighbourhood prediction at its edges *)

Lemma get_loc_not_in (l : label) (idx : list label) :
  ~ In l idx -> get_loc l idx = None.
Proof.
  intros H. destruct (get_loc l idx) as [p|] eqn:E; [|reflexivity].
  exfalso. apply H. apply get_loc_nth in E. exact (nth_error_In _ _ E).
Qed.

(** X5. For a label that is not a user of the matrix, the top-n
    recommendation raises (KeyError), and so does the neighbourhood prediction
    unless the matrix has neither rows nor columns. *)
Theorem unknown_user_raises (R : DataFrame) (M : list (label * string))
    (active_user : label) (k n : Z) :
  ~ In active_user (index R) ->
  find_top_n_recommendations R M active_user n = None /\
  (index R <> [] \/ columns R <> [] ->
   find_nearest_neighbour_ratings R active_user k = None).
Proof.
  intros Hu.
  assert (Hrow : loc_row R active_user = None).
  { unfold loc_row. now rewrite (get_loc_not_in _ _ Hu). }
  split.
  - unfold find_top_n_recommendations, top_recommendations_titles,
      top_recommendations, watched_movies. rewrite Hrow.
    destruct (find_nearest_neighbour_ratings R active_user 10); reflexivity.
  - intros Hne. unfold find_nearest_neighbour_ratings, nearest_neighbours,
      similarity_matrix.
    destruct (index R) as [|i idx] eqn:Ei.
    + destruct Hne as [Hne|Hne]; [congruence|].
      destruct (columns R) as [|c cols]; [congruence|].
      simpl. unfold predict_movie. now rewrite Hrow.
    + simpl. now rewrite Hrow.
Qed.

Lemma unknown_user_raises_witness :
  ~ In 7%Z (index ratings_with_zero) /\
  find_top_n_recommendations ratings_with_zero movies_five 7%Z 10%Z = None /\
  (index ratings_with_zero <> [] \/ columns ratings_with_zero <> [] ->
   find_nearest_neighbour_ratings ratings_with_zero 7%Z 10%Z = None).
Proof.
  assert (H : ~ In 7%Z (index ratings_with_zero))
    by (simpl; intuition discriminate).
  split; [exact H|].
  exact (unknown_user_raises ratings_with_zero movies_five 7%Z 10%Z 10%Z H).
Defined.

(** X6. For a user of the matrix and every [k], the neighbourhood prediction
    has exactly one row per movie of the matrix, in the order of its columns;
    for [k >= 0] the number of neighbours is the smaller of [k] and the number
    of users, so a [k] beyond the number of users is clamped; and when [k] is
    at least the number of users the active user is one of its own
    neighbours. *)
Theorem prediction_covers_every_movie (R : DataFrame) (active_user : label)
    (k : Z) :
  pivot_table R -> In active_user (index R) ->
  exists nearest predicted,
    nearest_neighbours R active_user k = Some nearest /\
    find_nearest_neighbour_ratings R active_user k = Some predicted /\
    map fst predicted = columns R /\
    ((0 <= k)%Z ->
     length nearest = Nat.min (Z.to_nat k) (length (index R))) /\
    ((Z.of_nat (length (index R)) <= k)%Z ->
     In active_user (map fst nearest)).
Proof.
  intros Hpivot Hactive.
  destruct (find_nearest_neighbour_ratings_eq R Hpivot active_user Hactive k)
    as (nearest & Hnn & Hp).
  exists nearest. eexists. split; [exact Hnn|]. split; [exact Hp|].
  split; [rewrite map_map; apply map_id|].
  destruct (similarity_matrix_labels R Hpivot active_user Hactive)
    as (sm & Hsm & Hlab).
  unfold nearest_neighbours in Hnn. rewrite Hsm in Hnn. simpl in Hnn.
  injection Hnn as <-.
  assert (Hlen : length (sort_values_desc sm) = length (index R)).
  { rewrite (Permutation_length (sort_values_desc_perm sm)), <- Hlab.
    symmetry. apply length_map. }
  split.
  - intros Hk. now rewrite slice_to_length, Hlen.
  - intros Hk. rewrite slice_to_all by (rewrite Hlen; exact Hk).
    apply (Permutation_in _
             (Permutation_sym (Permutation_map fst (sort_values_desc_perm sm)))).
    now rewrite Hlab.
Qed.

Lemma prediction_covers_every_movie_witness :
  pivot_table ratings_with_zero /\ In 1%Z (index ratings_with_zero) /\
  exists nearest predicted,
    nearest_neighbours ratings_with_zero 1%Z 10%Z = Some nearest /\
    find_nearest_neighbour_ratings ratings_with_zero 1%Z 10%Z = Some predicted /\
    map fst predicted = columns ratings_with_zero /\
    ((0 <= 10)%Z ->
     length nearest = Nat.min (Z.to_nat 10) (length (index ratings_with_zero))) /\
    ((Z.of_nat (length (index ratings_with_zero)) <= 10)%Z ->
     In 1%Z (map fst nearest)).
Proof.
  split; [exact ratings_with_zero_pivot|]. split; [now left|].
  apply prediction_covers_every_movie;
    [exact ratings_with_zero_pivot | now left].
Defined.

(** X7. With [k = 0] no neighbour is used: every movie is predicted at the
    active user's own mean rating. *)
Theorem prediction_without_neighbours (R : DataFrame) (active_user : label) :
  pivot_table R -> In active_user (index R) ->
  find_nearest_neighbour_ratings R active_user 0%Z
  = Some (map (fun i => (i, user_mean R active_user)) (columns R)).
Proof.
  intros Hpivot Hactive.
  destruct (find_nearest_neighbour_ratings_eq R Hpivot active_user Hactive 0%Z)
    as (nearest & Hnn & Hp).
  unfold nearest_neighbours in Hnn. apply bind_inv in Hnn.
  destruct Hnn as (sm & _ & [= <-]). exact Hp.
Qed.

Lemma prediction_without_neighbours_witness :
  pivot_table ratings_with_zero /\ In 1%Z (index ratings_with_zero) /\
  find_nearest_neighbour_ratings ratings_with_zero 1%Z 0%Z
  = Some (map (fun i => (i, user_mean ratings_with_zero 1%Z))
              (columns ratings_with_zero)).
Proof.
  split; [exact ratings_with_zero_pivot|]. split; [now left|].
  apply prediction_without_neighbours;
    [exact ratings_with_zero_pivot | now left].
Defined.

Lemma ratings_new_user_pivot : pivot_table ratings_new_user.
Proof. unfold pivot_table, rectangular. prove_pivot_table. Defined.

(** ** The size of the top-n selection *)

Lemma isin_filter_length {B : Type} (ls : list label) (M : list (label * B)) :
  NoDup (map fst M) ->
  (length (filter (fun m => isin (fst m) ls) M) <= length ls)%nat.
Proof.
  intros H.
  rewrite <- (length_map fst (filter _ M)).
  apply NoDup_incl_length; [now apply nodup_labels_filter|].
  intros l Hl. apply in_map_iff in Hl. destruct Hl as (m & <- & Hm).
  apply filter_In in Hm. now apply isin_spec.
Qed.

Lemma combine_functional {B : Type} (ls : list label) (xs : list B)
    (l : label) (x y : B) :
  NoDup ls -> In (l, x) (combine ls xs) -> In (l, y) (combine ls xs) -> x = y.
Proof.
  revert xs. induction ls as [|l' ls IH]; intros [|x' xs] Hnd Hx Hy;
    simpl in *; try contradiction.
  inversion Hnd as [|? ? Hl' Hnd']; subst.
  destruct Hx as [Hx|Hx], Hy as [Hy|Hy].
  - congruence.
  - exfalso. apply Hl'. injection Hx as -> _.
    exact (in_combine_l _ _ _ _ Hy).
  - exfalso. apply Hl'. injection Hy as -> _.
    exact (in_combine_l _ _ _ _ Hx).
  - now apply (IH xs).
Qed.

Lemma filter_map_length {A B : Type} (g : B -> bool) (h : A -> B) (l : list A) :
  length (filter (fun x => g (h x)) l) = length (filter g (map h l)).
Proof.
  induction l as [|x l IH]; simpl; [reflexivity|].
  destruct (g (h x)); simpl; now rewrite IH.
Qed.

Section TopN.
Variable R : DataFrame.
Hypothesis Hpivot : pivot_table R.
Variable active_user : label.
Hypothesis Hactive : In active_user (index R).

(** A movie is dropped as watched exactly when the active user's cell for it
    is strictly positive. *)
Lemma watched_iff_positive (row : list float) (i : label) :
  loc_row R active_user = Some row -> In i (columns R) ->
  isin i (map fst (filter (fun c => (0 <? snd c)%float) (combine (columns R) row)))
  = positive (rating R active_user i).
Proof.
  intros Hrow Hi.
  pose proof (rating_in_combine R (proj1 Hpivot) active_user i row Hrow Hi)
    as Hcell.
  destruct (positive (rating R active_user i)) eqn:Hpos.
  - apply isin_spec. apply in_map_iff.
    exists (i, rating R active_user i). split; [reflexivity|].
    apply filter_In. now split.
  - apply not_true_is_false. intros Hin. apply isin_spec in Hin.
    apply in_map_iff in Hin. destruct Hin as ([i' x] & Hfst & Hin).
    simpl in Hfst. subst i'. apply filter_In in Hin.
    destruct Hin as [Hin Hx]. simpl in Hx.
    rewrite (combine_functional _ _ i x (rating R active_user i)
               (proj2 (proj2 Hpivot)) Hin Hcell) in Hx.
    unfold positive in Hpos. congruence.
Qed.

Lemma top_recommendations_length (n : Z) :
  (0 <= n)%Z ->
  exists top,
    top_recommendations R active_user n = Some top /\
    incl (map fst top) (columns R) /\
    length top
    = Nat.min (Z.to_nat n)
        (length (filter (fun i => negb (positive (rating R active_user i)))
                        (columns R))).
Proof.
  intros Hn.
  destruct (top_recommendations_eq R Hpivot active_user Hactive n)
    as (predicted & row & _ & Hlab & Hrow & Htop).
  eexists. split; [exact Htop|]. split.
  - intros i Hi. rewrite <- Hlab. apply in_map_iff in Hi.
    destruct Hi as (r & <- & Hr). apply in_map.
    apply slice_to_incl in Hr.
    apply (Permutation_in _ (sort_values_desc_perm _)) in Hr.
    apply filter_In in Hr. apply Hr.
  - rewrite slice_to_length by exact Hn. f_equal.
    rewrite (Permutation_length (sort_values_desc_perm _)).
    unfold drop.
    rewrite (filter_map_length
               (fun i => negb (isin i (map fst (filter (fun c => (0 <? snd c)%float)
                                                       (combine (columns R) row)))))
               fst predicted).
    rewrite Hlab. f_equal. apply filter_ext_in. intros i Hi.
    now rewrite (watched_iff_positive row i Hrow Hi).
Qed.
End TopN.

(** X9. For a user of the matrix and [n >= 0], the frame of top
    recommendations has as many rows as the smaller of [n] and the number of
    movies the user has no strictly positive rating for: fewer than [n] rows
    come out, without an error, when fewer movies are left. *)
Theorem top_recommendations_has_min_rows (R : DataFrame) (active_user : label)
    (n : Z) :
  pivot_table R -> In active_user (index R) -> (0 <= n)%Z ->
  exists top,
    top_recommendations R active_user n = Some top /\
    length top
    = Nat.min (Z.to_nat n)
        (length (filter (fun i => negb (positive (rating R active_user i)))
                        (columns R))).
Proof.
  intros Hpivot Hactive Hn.
  destruct (top_recommendations_length R Hpivot active_user Hactive n Hn)
    as (top & Htop & _ & Hlen).
  now exists top.
Qed.

Lemma top_recommendations_has_min_rows_witness :
  pivot_table ratings_two_unrated /\ In 1%Z (index ratings_two_unrated) /\
  (0 <= 10)%Z /\
  exists top,
    top_recommendations ratings_two_unrated 1%Z 10%Z = Some top /\
    length top
    = Nat.min (Z.to_nat 10)
        (length (filter (fun i => negb (positive (rating ratings_two_unrated 1%Z i)))
                        (columns ratings_two_unrated))).
Proof.
  assert (H : (0 <= 10)%Z) by (vm_compute; discriminate).
  split; [exact ratings_two_unrated_pivot|]. split; [now left|].
  split; [exact H|].
  exact (top_recommendations_has_min_rows ratings_two_unrated 1%Z 10%Z
           ratings_two_unrated_pivot (or_introl eq_refl) H).
Defined.

(** X10. For a user of the matrix, [n >= 0] and a movie table without
    repeated movieID, [find_top_n_recommendations] returns at most [n] titles,
    and each is the title, in the movie table, of a movie of the rating
    matrix. *)
Theorem top_n_returns_at_most_n_titles (R : DataFrame)
    (M : list (label * string)) (active_user : label) (n : Z) :
  pivot_table R -> In active_user (index R) -> (0 <= n)%Z ->
  NoDup (map fst M) ->
  exists titles,
    find_top_n_recommendations R M active_user n = Some titles /\
    (length titles <= Z.to_nat n)%nat /\
    forall t, In t titles -> exists m, In (m, t) M /\ In m (columns R).
Proof.
  intros Hpivot Hactive Hn HM.
  destruct (top_recommendations_length R Hpivot active_user Hactive n Hn)
    as (top & Htop & Hincl & Hlen).
  unfold find_top_n_recommendations, top_recommendations_titles.
  rewrite Htop. simpl. eexists. split; [reflexivity|]. split.
  - rewrite length_map.
    apply (Nat.le_trans _ _ _ (isin_filter_length (map fst top) M HM)).
    rewrite length_map, Hlen. apply Nat.le_min_l.
  - intros t Ht. apply in_map_iff in Ht. destruct Ht as ([m t'] & Heq & Hm).
    simpl in Heq. subst t'. apply filter_In in Hm. destruct Hm as [Hm Hin].
    exists m. split; [exact Hm|]. apply Hincl. now apply isin_spec.
Qed.

Lemma movies_five_unique : NoDup (map fst movies_five).
Proof. repeat constructor; simpl; intuition discriminate. Defined.

Lemma top_n_returns_at_most_n_titles_witness :
  pivot_table ratings_two_unrated /\ In 1%Z (index ratings_two_unrated) /\
  (0 <= 1)%Z /\ NoDup (map fst movies_five) /\
  exists titles,
    find_top_n_recommendations ratings_two_unrated movies_five 1%Z 1%Z
    = Some titles /\
    (length titles <= Z.to_nat 1)%nat /\
    forall t, In t titles ->
      exists m, In (m, t) movies_five /\ In m (columns ratings_two_unrated).
Proof.
  assert (H : (0 <= 1)%Z) by (vm_compute; discriminate).
  split; [exact ratings_two_unrated_pivot|]. split; [now left|].
  split; [exact H|]. split; [exact movies_five_unique|].
  exact (top_n_returns_at_most_n_titles ratings_two_unrated movies_five 1%Z 1%Z
           ratings_two_unrated_pivot (or_introl eq_refl) H movies_five_unique).
Defined.

(** ** Training at its edges *)

Lemma foldM_preserves {A T : Type} (Inv : T -> Prop) (f : T -> A -> option T)
    (l : list A) (s s' : T) :
  (forall s1 x s2, Inv s1 -> f s1 x = Some s2 -> Inv s2) ->
  Inv s -> foldM f l s = Some s' -> Inv s'.
Proof.
  intros Hf. revert s. induction l as [|x l IH]; intros s Hs; simpl.
  - now intros [= <-].
  - intros H. apply bind_inv in H. destruct H as (s1 & H1 & H2).
    exact (IH s1 (Hf s x s1 Hs H1) H2).
Qed.

Section TrainingEdges.
Local Open Scope float_scope.
Variables gamma lamda : float.
Variable R : DataFrame.

Lemma train_preserves (Inv : store -> Prop) (steps : nat) (s0 s : store)
    (out out' : string) :
  (forall s1 s2, Inv s1 -> sgd_epoch gamma lamda s1 = Some s2 -> Inv s2) ->
  Inv s0 -> train gamma lamda steps s0 out = Some (s, out') -> Inv s.
Proof.
  intros Hf. revert s0 out. induction steps as [|steps IH]; intros s0 out Hs0;
    simpl.
  - now intros [= <- _].
  - intros H. apply bind_inv in H. destruct H as (s1 & H1 & H).
    apply bind_inv in H. destruct H as (e & _ & H).
    pose proof (Hf s0 s1 Hs0 H1) as Hs1.
    destruct (e <? 0.001); [now injection H as <- _ | exact (IH _ _ Hs1 H)].
Qed.

Lemma sgd_update_inv (s s' : store) (i j : label) (r : float) :
  sgd_update gamma lamda s i j r = Some s' ->
  exists v w, s' = mkStore (sR s) (set_row (sP s) i v) (set_row (sQ s) j w).
Proof.
  unfold sgd_update. intros H.
  apply bind_inv in H. destruct H as (p & _ & H).
  apply bind_inv in H. destruct H as (q & _ & H).
  apply bind_inv in H. destruct H as (q' & _ & H).
  apply bind_inv in H. destruct H as (p' & _ & H).
  injection H as <-. eauto.
Qed.

(** A visit changes nothing in the row of a user, or of a movie, none of whose
    cells is strictly positive. *)
Lemma sgd_cell_keeps_rows (s s' : store) (i j : label) :
  sR s = R -> sgd_cell gamma lamda s i j = Some s' ->
  sR s' = R /\
  (forall i0, (forall j', positive (rating R i0 j') = false) ->
              loc_row (sP s') i0 = loc_row (sP s) i0) /\
  (forall j0, (forall i', positive (rating R i' j0) = false) ->
              loc_row (sQ s') j0 = loc_row (sQ s) j0).
Proof.
  intros HR H. unfold sgd_cell in H. rewrite HR in H.
  apply bind_inv in H. destruct H as (r & Hr & H).
  assert (Hrat : rating R i j = r) by (unfold rating; now rewrite Hr).
  destruct (0 <? r) eqn:Hpos.
  - apply sgd_update_inv in H. destruct H as (v & w & ->). simpl.
    split; [exact HR|]. split.
    + intros i0 Hi0. apply loc_row_set_row_other. intros ->.
      specialize (Hi0 j). unfold positive in Hi0. congruence.
    + intros j0 Hj0. apply loc_row_set_row_other. intros ->.
      specialize (Hj0 i). unfold positive in Hj0. congruence.
  - injection H as <-. now repeat split.
Qed.

Lemma sgd_epoch_keeps_rows (s0 s1 s2 : store) :
  rows_kept R s0 s1 -> sgd_epoch gamma lamda s1 = Some s2 -> rows_kept R s0 s2.
Proof.
  intros H1 H. unfold sgd_epoch in H.
  assert (Hcell : forall sa i j sb,
             rows_kept R s0 sa -> sgd_cell gamma lamda sa i j = Some sb ->
             rows_kept R s0 sb).
  { intros sa i j sb (HRa & HPa & HQa) Hc.
    destruct (sgd_cell_keeps_rows sa sb i j HRa Hc) as (HRb & HPb & HQb).
    split; [exact HRb|]. split.
    - intros i0 Hi0. now rewrite (HPb i0 Hi0), (HPa i0 Hi0).
    - intros j0 Hj0. now rewrite (HQb j0 Hj0), (HQa j0 Hj0). }
  revert H. apply (foldM_preserves (rows_kept R s0)); [|exact H1].
  intros sa i sb Ha. apply (foldM_preserves (rows_kept R s0)); [|exact Ha].
  intros sc j sd Hc. now apply Hcell.
Qed.

Hypothesis Hrect : rectangular R.

Lemma sgd_epoch_idle (s : store) :
  sR s = R -> (forall i j, positive (rating R i j) = false) ->
  sgd_epoch gamma lamda s = Some s /\ objective lamda s = Some 0.
Proof.
  intros HR Hnone. unfold sgd_epoch, objective. rewrite HR. split.
  - destruct (foldM_invariant (fun s' => s' = s)
                (fun s i => foldM (fun s j => sgd_cell gamma lamda s i j)
                                  (columns (sR s)) s)
                (index R) s) as (s' & -> & ->); [|reflexivity|reflexivity].
    intros s1 i Hi ->. rewrite HR.
    destruct (foldM_invariant (fun s' => s' = s)
                (fun s j => sgd_cell gamma lamda s i j) (columns R) s)
      as (s' & -> & ->); [|reflexivity|now exists s].
    intros s2 j Hj ->. exists s. split; [|reflexivity].
    unfold sgd_cell. rewrite HR, (loc_cell_in R Hrect i j Hi Hj). simpl.
    specialize (Hnone i j). unfold positive in Hnone. now rewrite Hnone.
  - destruct (foldM_invariant (fun e => e = 0)
                (fun e i => foldM (fun e j => objective_cell lamda s i j e)
                                  (columns R) e)
                (index R) 0) as (e & -> & ->); [|reflexivity|reflexivity].
    intros e1 i Hi ->.
    destruct (foldM_invariant (fun e => e = 0)
                (fun e j => objective_cell lamda s i j e) (columns R) 0)
      as (e & -> & ->); [|reflexivity|now exists 0].
    intros e2 j Hj ->. exists 0. split; [|reflexivity].
    unfold objective_cell. rewrite HR, (loc_cell_in R Hrect i j Hi Hj). simpl.
    specialize (Hnone i j). unfold positive in Hnone. now rewrite Hnone.
Qed.
End TrainingEdges.

(** X11. When the matrix holds no strictly positive rating (all missing, say),
    or when [steps <= 0], the training returns the two random initial matrices
    as they were drawn and prints nothing. *)
Theorem training_with_nothing_to_learn (gamma lamda : float) (R : DataFrame)
    (K : nat) (steps : Z) (rnd : nat -> float) :
  rectangular R ->
  (steps <= 0)%Z \/ (forall i j, positive (rating R i j) = false) ->
  perform_matrix_factorization gamma lamda R K steps rnd
  = Some ((sP (init_store R K rnd), sQ (init_store R K rnd)), ""%string).
Proof.
  intros Hrect Hcase. unfold perform_matrix_factorization.
  assert (Htrain : train gamma lamda (Z.to_nat steps) (init_store R K rnd) ""
                   = Some (init_store R K rnd, ""%string)).
  { destruct Hcase as [Hsteps|Hnone].
    - replace (Z.to_nat steps) with 0%nat by lia. reflexivity.
    - destruct (Z.to_nat steps) as [|m]; [reflexivity|]. simpl.
      destruct (sgd_epoch_idle gamma lamda R Hrect (init_store R K rnd)
                  eq_refl Hnone) as [-> Hobj].
      simpl. rewrite Hobj. reflexivity. }
  rewrite Htrain. reflexivity.
Qed.

Lemma training_with_nothing_to_learn_witness :
  rectangular ratings_single_zero /\
  ((20 <= 0)%Z \/ (forall i j, positive (rating ratings_single_zero i j) = false)) /\
  perform_matrix_factorization 0.001 0.02 ratings_single_zero 2 20 draws_half
  = Some ((sP (init_store ratings_single_zero 2 draws_half),
           sQ (init_store ratings_single_zero 2 draws_half)), ""%string).
Proof.
  assert (H : forall i j, positive (rating ratings_single_zero i j) = false).
  { intros i j. unfold rating, loc_cell, loc_row. simpl.
    destruct (i =? 1)%Z; [|reflexivity]. simpl.
    destruct (j =? 1)%Z; reflexivity. }
  split; [exact ratings_single_zero_rectangular|]. split; [now right|].
  exact (training_with_nothing_to_learn 0.001 0.02 ratings_single_zero 2 20
           draws_half ratings_single_zero_rectangular (or_intror H)).
Defined.

(** X12. Training never changes the factor vector of a user none of whose
    ratings is strictly positive, nor that of a movie no user has rated
    strictly positively: in the matrices returned, these rows still hold their
    random initial values. *)
Theorem training_leaves_unrated_rows (gamma lamda : float) (R : DataFrame)
    (K : nat) (steps : Z) (rnd : nat -> float) :
  rectangular R ->
  exists P Q out,
    perform_matrix_factorization gamma lamda R K steps rnd = Some ((P, Q), out) /\
    (forall i0, (forall j, positive (rating R i0 j) = false) ->
                loc_row P i0 = loc_row (sP (init_store R K rnd)) i0) /\
    (forall j0, (forall i, positive (rating R i j0) = false) ->
                loc_row Q j0 = loc_row (sQ (init_store R K rnd)) j0).
Proof.
  intros Hrect.
  destruct (train_spec gamma lamda R K Hrect (Z.to_nat steps)
              (init_store R K rnd) "" (init_store_shape R K rnd))
    as (m & s & out & _ & _ & _ & Htr & _).
  exists (sP s), (sQ s), out. split.
  - unfold perform_matrix_factorization. rewrite Htr. reflexivity.
  - assert (Hkept : rows_kept R (init_store R K rnd) s).
    { apply (train_preserves gamma lamda (rows_kept R (init_store R K rnd))
               (Z.to_nat steps) (init_store R K rnd) s "" out);
        [|now repeat split|exact Htr].
      intros s1 s2. apply sgd_epoch_keeps_rows. }
    split; apply Hkept.
Qed.

Lemma training_leaves_unrated_rows_witness :
  rectangular ratings_new_user /\
  exists P Q out,
    perform_matrix_factorization 0.001 0.02 ratings_new_user 2 3 draws_sixteenths
    = Some ((P, Q), out) /\
    (forall i0, (forall j, positive (rating ratings_new_user i0 j) = false) ->
                loc_row P i0
                = loc_row (sP (init_store ratings_new_user 2 draws_sixteenths)) i0) /\
    (forall j0, (forall i, positive (rating ratings_new_user i j0) = false) ->
                loc_row Q j0
                = loc_row (sQ (init_store ratings_new_user 2 draws_sixteenths)) j0).
Proof.
  split; [exact (proj1 ratings_new_user_pivot)|].
  apply training_leaves_unrated_rows. exact (proj1 ratings_new_user_pivot).
Defined.

(** ** The pivot table *)

Lemma insert_label_in (l x : label) (ls : list label) :
  In x (insert_label l ls) <-> x = l \/ In x ls.
Proof.
  induction ls as [|l' ls IH]; simpl.
  - intuition.
  - destruct (Z.ltb_spec l l') as [Hlt|Hge]; simpl; [intuition|].
    destruct (Z.eqb_spec l l') as [->|Hne]; simpl; [intuition|].
    rewrite IH. intuition.
Qed.

Lemma insert_label_sorted (l : label) (ls : list label) :
  StronglySorted Z.lt ls -> StronglySorted Z.lt (insert_label l ls).
Proof.
  induction 1 as [|l' ls Hs IH Hall]; simpl; [repeat constructor|].
  destruct (Z.ltb_spec l l') as [Hlt|Hge].
  - constructor; [now constructor|]. constructor; [exact Hlt|].
    revert Hall. apply Forall_impl. intros x Hx. lia.
  - destruct (Z.eqb_spec l l') as [->|Hne]; [now constructor|].
    constructor; [exact IH|]. apply Forall_forall. intros x Hx.
    apply insert_label_in in Hx. destruct Hx as [->|Hx]; [lia|].
    rewrite Forall_forall in Hall. now apply Hall.
Qed.

Lemma unique_sorted_in (ls : list label) (x : label) :
  In x (unique_sorted ls) <-> In x ls.
Proof.
  induction ls as [|l ls IH]; simpl; [reflexivity|].
  rewrite insert_label_in, IH. intuition.
Qed.

Lemma unique_sorted_sorted (ls : list label) :
  StronglySorted Z.lt (unique_sorted ls).
Proof.
  induction ls as [|l ls IH]; simpl; [constructor|].
  now apply insert_label_sorted.
Qed.

Lemma strictly_sorted_nodup (ls : list label) :
  StronglySorted Z.lt ls -> NoDup ls.
Proof.
  induction 1 as [|l ls Hs IH Hall]; constructor; [|exact IH].
  intros Hin. rewrite Forall_forall in Hall. specialize (Hall l Hin). lia.
Qed.

(** A cell of a frame built cell by cell from its labels. *)
Lemma table_cell (idx cols : list label) (f : label -> label -> float)
    (u m : label) :
  In u idx -> In m cols ->
  loc_cell (mkFrame idx cols (map (fun u => map (fun m => f u m) cols) idx)) u m
  = Some (f u m).
Proof.
  intros Hu Hm. unfold loc_cell, loc_row. simpl.
  destruct (get_loc_in _ _ Hu) as (p & Hp). rewrite Hp. simpl.
  rewrite nth_error_map, (get_loc_nth _ _ _ Hp). simpl.
  destruct (get_loc_in _ _ Hm) as (q & Hq). rewrite Hq. simpl.
  now rewrite nth_error_map, (get_loc_nth _ _ _ Hq).
Qed.

Lemma group_nil (ratings_data : list RatingRow.t) (u m : label) :
  (forall r, In r ratings_data -> RatingRow.userID r = u -> RatingRow.movieID r <> m) ->
  group ratings_data u m = [].
Proof.
  unfold group. induction ratings_data as [|r data IH]; intros H; simpl;
    [reflexivity|].
  destruct (Z.eqb_spec (RatingRow.userID r) u) as [Hu|Hu]; simpl.
  - destruct (Z.eqb_spec (RatingRow.movieID r) m) as [Hm|Hm]; simpl.
    + exfalso. exact (H r (or_introl eq_refl) Hu Hm).
    + apply IH. intros r' Hr'. apply H. now right.
  - apply IH. intros r' Hr'. apply H. now right.
Qed.

(** X13. The matrix [pd.pivot_table] builds from any rating rows is
    rectangular and has unique row and column labels, both in increasing
    order: it is a pivot table in the sense the statements on the
    recommendations assume. *)
Theorem pd_pivot_table_is_a_pivot_table (ratings_data : list RatingRow.t) :
  pivot_table (pd_pivot_table ratings_data) /\
  StronglySorted Z.lt (index (pd_pivot_table ratings_data)) /\
  StronglySorted Z.lt (columns (pd_pivot_table ratings_data)).
Proof.
  unfold pd_pivot_table, pivot_table, rectangular. simpl.
  repeat split.
  - apply length_map.
  - apply Forall_forall. intros row Hrow. apply in_map_iff in Hrow.
    destruct Hrow as (u & <- & _). apply length_map.
  - apply strictly_sorted_nodup, unique_sorted_sorted.
  - apply strictly_sorted_nodup, unique_sorted_sorted.
  - apply unique_sorted_sorted.
  - apply unique_sorted_sorted.
Qed.

(** X14. In the matrix [pd.pivot_table] builds, every rating row whose
    (user, movie) group has a mean that is a number finds its user among the
    rows and its movie among the columns, and the cell of the two holds that
    mean; the cell of a user and a movie of the matrix for which there is no
    rating row is NaN. *)
Theorem pd_pivot_table_cells (ratings_data : list RatingRow.t) :
  (forall r, In r ratings_data ->
     let mean := group_mean (group ratings_data (RatingRow.userID r) (RatingRow.movieID r)) in
     Np.isnan mean = false ->
     In (RatingRow.userID r) (index (pd_pivot_table ratings_data)) /\
     In (RatingRow.movieID r) (columns (pd_pivot_table ratings_data)) /\
     loc_cell (pd_pivot_table ratings_data) (RatingRow.userID r) (RatingRow.movieID r)
     = Some mean) /\
  (forall u m,
     In u (index (pd_pivot_table ratings_data)) ->
     In m (columns (pd_pivot_table ratings_data)) ->
     (forall r, In r ratings_data -> RatingRow.userID r = u -> RatingRow.movieID r <> m) ->
     loc_cell (pd_pivot_table ratings_data) u m = Some nan).
Proof.
  split.
  - intros r Hr mean Hmean.
    assert (Hu : In (RatingRow.userID r) (index (pd_pivot_table ratings_data))).
    { unfold pd_pivot_table. simpl. apply unique_sorted_in, in_map.
      apply filter_In. split; [exact Hr | now apply negb_true_iff]. }
    assert (Hm : In (RatingRow.movieID r) (columns (pd_pivot_table ratings_data))).
    { unfold pd_pivot_table. simpl. apply unique_sorted_in, in_map.
      apply filter_In. split; [exact Hr | now apply negb_true_iff]. }
    split; [exact Hu|]. split; [exact Hm|].
    unfold pd_pivot_table in *. simpl in Hu, Hm. now apply table_cell.
  - intros u m Hu Hm Hnone. unfold pd_pivot_table in *. simpl in Hu, Hm.
    rewrite (table_cell _ _ (fun u m => group_mean (group ratings_data u m))
               u m Hu Hm).
    now rewrite (group_nil ratings_data u m Hnone).
Qed.




(** ** The latent factor technique of the main script *)

Lemma get_loc_firstn (l : label) (n : nat) (idx : list label) (p : nat) :
  get_loc l (firstn n idx) = Some p -> get_loc l idx = Some p /\ (p < n)%nat.
Proof.
  revert n p. induction idx as [|l' idx IH]; intros [|n] p; simpl;
    try discriminate.
  destruct (Z.eqb l l').
  - intros [= <-]. split; [reflexivity | lia].
  - intros H. apply bind_inv in H. destruct H as (q & Hq & [= <-]).
    destruct (IH n q Hq) as [-> Hlt]. simpl. split; [reflexivity | lia].
Qed.

Lemma nth_error_firstn_some {A : Type} (n : nat) (l : list A) (p : nat) (x : A) :
  nth_error (firstn n l) p = Some x -> nth_error l p = Some x.
Proof.
  rewrite nth_error_firstn. destruct (p <? n)%nat; [auto | discriminate].
Qed.

Lemma map_fst_combine {A B : Type} (l : list A) (l' : list B) :
  length l = length l' -> map fst (combine l l') = l.
Proof.
  revert l'. induction l as [|x l IH]; intros [|y l'] H; simpl in *;
    try reflexivity; try discriminate.
  f_equal. apply IH. lia.
Qed.

Lemma iloc_to_rectangular (rows cols : nat) (R : DataFrame) :
  rectangular R -> rectangular (iloc_to rows cols R).
Proof.
  intros [Hlen Hrows]. unfold rectangular, iloc_to. simpl. split.
  - now rewrite length_map, !length_firstn, Hlen.
  - apply Forall_forall. intros row Hrow. apply in_map_iff in Hrow.
    destruct Hrow as (row' & <- & Hin). apply firstn_in in Hin.
    rewrite Forall_forall in Hrows.
    now rewrite !length_firstn, (Hrows row' Hin).
Qed.

(** X15. The part [iloc[:rows, :cols]] of a pivot table is a pivot table with
    at most [rows] users and [cols] movies, and each of its cells is the cell
    of the same user and movie in the whole matrix. *)
Theorem iloc_to_is_a_part (rows cols : nat) (R : DataFrame) :
  pivot_table R ->
  pivot_table (iloc_to rows cols R) /\
  (length (index (iloc_to rows cols R)) <= rows)%nat /\
  (length (columns (iloc_to rows cols R)) <= cols)%nat /\
  forall i j x,
    loc_cell (iloc_to rows cols R) i j = Some x -> loc_cell R i j = Some x.
Proof.
  intros (Hrect & Hi & Hc). split; [|split; [|split]].
  - split; [now apply iloc_to_rectangular|].
    split; simpl; now apply nodup_firstn.
  - simpl. apply firstn_le_length.
  - simpl. apply firstn_le_length.
  - intros i j x H. unfold loc_cell, loc_row in *. simpl in H.
    apply bind_inv in H. destruct H as (row & Hrow & H).
    apply bind_inv in Hrow. destruct Hrow as (p & Hp & Hrow).
    apply bind_inv in H. destruct H as (q & Hq & Hx).
    apply get_loc_firstn in Hp. destruct Hp as [Hp _].
    apply get_loc_firstn in Hq. destruct Hq as [Hq Hqlt].
    rewrite nth_error_map in Hrow.
    destruct (nth_error (firstn rows (values R)) p) as [row'|] eqn:E;
      [|discriminate].
    simpl in Hrow. injection Hrow as <-.
    apply nth_error_firstn_some in E, Hx.
    rewrite Hp. simpl. rewrite E. simpl. rewrite Hq. simpl. exact Hx.
Qed.

Lemma iloc_to_is_a_part_witness :
  pivot_table ratings_two_unrated /\
  pivot_table (iloc_to 1 3 ratings_two_unrated) /\
  (length (index (iloc_to 1 3 ratings_two_unrated)) <= 1)%nat /\
  (length (columns (iloc_to 1 3 ratings_two_unrated)) <= 3)%nat /\
  forall i j x,
    loc_cell (iloc_to 1 3 ratings_two_unrated) i j = Some x ->
    loc_cell ratings_two_unrated i j = Some x.
Proof.
  split; [exact ratings_two_unrated_pivot|].
  exact (iloc_to_is_a_part 1 3 ratings_two_unrated ratings_two_unrated_pivot).
Defined.

Lemma latent_predicted_ratings_labels (R : DataFrame) (K : nat) (s : store)
    (active_user : label) :
  store_shape R K s -> In active_user (index R) ->
  exists predicted,
    latent_predicted_ratings (sP s) (sQ s) active_user = Some predicted /\
    map fst predicted = columns R.
Proof.
  intros (_ & HP & HQ) Hu.
  destruct (factor_shape_loc_row _ _ _ active_user HP Hu) as (p & Hp & Hlen).
  unfold latent_predicted_ratings. rewrite Hp. simpl.
  destruct HQ as (Hidx & Hcols & Hvals & _).
  rewrite Hcols, range_index_length, Hlen, Nat.eqb_refl.
  eexists. split; [reflexivity|].
  rewrite Hidx. apply map_fst_combine. now rewrite length_map.
Qed.

(** X16. For a rectangular rating matrix, the latent factor part of the main
    script raises (KeyError) exactly when user 10 is not among the first 100
    users of the matrix; otherwise it returns its list of titles. *)
Theorem main_latent_factor_raises_iff (R : DataFrame)
    (M : list (label * string)) (rnd : nat -> float) :
  rectangular R ->
  (main_latent_factor R M rnd = None <-> ~ In 10%Z (firstn 100 (index R))).
Proof.
  intros Hrect.
  pose proof (iloc_to_rectangular 100 100 R Hrect) as Hrect'.
  destruct (train_spec 0.001 0.02 (iloc_to 100 100 R) 2 Hrect' (Z.to_nat 20)
              (init_store (iloc_to 100 100 R) 2 rnd) ""
              (init_store_shape (iloc_to 100 100 R) 2 rnd))
    as (m & s & out & _ & _ & Hs & Htr & _).
  unfold main_latent_factor, perform_matrix_factorization.
  rewrite Htr. cbn [bind fst snd]. unfold latent_recommendations. split.
  - intros Hnone Hin.
    destruct (latent_predicted_ratings_labels (iloc_to 100 100 R) 2 s 10%Z
                Hs Hin) as (predicted & Hpred & _).
    rewrite Hpred in Hnone. discriminate.
  - intros Hout. unfold latent_predicted_ratings, loc_row.
    destruct Hs as (_ & (Hidx & _) & _). rewrite Hidx.
    change (index (iloc_to 100 100 R)) with (firstn 100 (index R)).
    now rewrite (get_loc_not_in _ _ Hout).
Qed.

Lemma main_latent_factor_raises_iff_witness :
  rectangular ratings_with_zero /\
  (main_latent_factor ratings_with_zero movies_five draws_sixteenths = None <->
   ~ In 10%Z (firstn 100 (index ratings_with_zero))).
Proof.
  split; [exact (proj1 ratings_with_zero_pivot)|].
  apply main_latent_factor_raises_iff. exact (proj1 ratings_with_zero_pivot).
Defined.

(** X17. The latent factor technique drops no movie: with factor matrices of
    the shapes the training returns, a user of the matrix and a [limit] of at
    least the number of movies, the titles returned are those of all the rows
    of the movie table whose movie is a column of the rating matrix, whether
    the user has rated it or not. *)
Theorem latent_recommendations_keep_rated_movies (R : DataFrame) (K : nat)
    (s : store) (M : list (label * string)) (active_user : label) (limit : Z) :
  store_shape R K s -> In active_user (index R) ->
  (Z.of_nat (length (columns R)) <= limit)%Z ->
  latent_recommendations M (sP s) (sQ s) active_user limit
  = Some (map snd (filter (fun m => isin (fst m) (columns R)) M)).
Proof.
  intros Hs Hu Hlimit.
  destruct (latent_predicted_ratings_labels R K s active_user Hs Hu)
    as (predicted & Hpred & Hlab).
  unfold latent_recommendations. rewrite Hpred. simpl.
  pose proof (sort_values_desc_perm predicted) as Hperm.
  rewrite slice_to_all.
  2:{ rewrite (Permutation_length Hperm), <- (length_map fst), Hlab.
      exact Hlimit. }
  f_equal. f_equal. apply filter_ext. intros m.
  apply eq_true_iff_eq. rewrite !isin_spec, <- Hlab. split; intros H.
  - exact (Permutation_in _ (Permutation_map fst Hperm) H).
  - exact (Permutation_in _ (Permutation_sym (Permutation_map fst Hperm)) H).
Qed.

Lemma latent_recommendations_keep_rated_movies_witness :
  let s := init_store ratings_with_zero 2 draws_sixteenths in
  store_shape ratings_with_zero 2 s /\ In 1%Z (index ratings_with_zero) /\
  (Z.of_nat (length (columns ratings_with_zero)) <= 10)%Z /\
  latent_recommendations movies_five (sP s) (sQ s) 1%Z 10%Z
  = Some (map snd (filter (fun m => isin (fst m) (columns ratings_with_zero))
                          movies_five)).
Proof.
  intros s.
  assert (H : (Z.of_nat (length (columns ratings_with_zero)) <= 10)%Z)
    by (vm_compute; discriminate).
  split; [apply init_store_shape|]. split; [now left|]. split; [exact H|].
  exact (latent_recommendations_keep_rated_movies ratings_with_zero 2 s
           movies_five 1%Z 10%Z
           (init_store_shape ratings_with_zero 2 draws_sixteenths)
           (or_introl eq_refl) H).
Defined.
